(** * octopilot: the git synchronization pipeline of [repository/git.go]

    A shallow embedding of the four operations of [repository/git.go]
    ([cloneGitRepository], [switchBranch], [commitChanges], [pushChanges])
    and the properties the specification states about them.

    The Go code is a sequence of calls into go-git, into the token provider
    [githubClient] and into the clock.  Each such call is an _action_ with a
    typed answer; an operation is a program in the free monad over these
    actions, written with the same control flow as the Go function.  Programs
    are run against a _backend_: a state-passing handler that answers every
    action.  The theorems about an operation quantify over all backends; an
    in-memory backend that follows go-git's documented behaviour is used to
    run the operations on concrete repositories.

    The [logrus] calls are left out: they read values already computed and
    neither touch the repository nor influence a result.  The repository
    handle an operation receives is taken to be a non-nil pointer; the
    pointers that calls return may be nil, and using a nil one panics. *)

From Stdlib Require Import ZArith Ascii String List Lia.
From stdpp Require Import base option list strings gmap.

Local Open Scope string_scope.
Local Open Scope list_scope.

(** ** Go values *)

Module Go.

(** A Go [string] is a sequence of bytes and [len(s)] is [String.length];
    [LF] is the string ["\n"]. *)
Definition LF : string := String "010"%char EmptyString.

(** [error]: a message, and for errors built by [fmt.Errorf] with [%w] the
    wrapped error that [errors.Unwrap] returns. *)
Inductive error : Type :=
| errors_New (msg : string)
| wrapError (msg : string) (err : error).

Definition Error (e : error) : string :=
  match e with
  | errors_New msg => msg
  | wrapError msg _ => msg
  end.

Definition Unwrap (e : error) : option error :=
  match e with
  | errors_New _ => None
  | wrapError _ err => Some err
  end.

(** [fmt.Errorf(prefix + "%w", err)] where [prefix] is the format with its
    [%s] verbs already substituted. *)
Definition Errorf_w (prefix : string) (err : error) : error :=
  wrapError (prefix +:+ Error err) err.

(** [strings.Builder]: [WriteString] appends. *)
Definition Builder := string.
Definition new_Builder : Builder := "".
Definition WriteString (b : Builder) (s : string) : Builder := b +:+ s.
Definition Builder_String (b : Builder) : string := b.



End Go.
Export Go.

(** ** The types of go-git and of the repository package that the file uses *)

Module Git.

(** [plumbing.ReferenceName] is a string type. *)
Definition ReferenceName := string.

(** [plumbing.NewBranchReferenceName] and [plumbing.NewRemoteReferenceName]:
    the prefixes [refs/heads/] and [refs/remotes/<remote>/]. *)
Definition NewBranchReferenceName (name : string) : ReferenceName :=
  "refs/heads/" +:+ name.
Definition NewRemoteReferenceName (remote name : string) : ReferenceName :=
  "refs/remotes/" +:+ remote +:+ "/" +:+ name.

(** [plumbing.Hash], kept in the hexadecimal form [Hash.String] prints. *)
Record Hash := mkHash { Hash_String : string }.

Inductive ReferenceType := HashReference | SymbolicReference.

(** [plumbing.Reference]: type, name, hash (for a hash reference) and
    target (for a symbolic one). *)
Record Reference := mkReference {
  ref_t : ReferenceType;
  ref_n : ReferenceName;
  ref_h : Hash;
  ref_target : ReferenceName
}.

Definition NewHashReference (n : ReferenceName) (h : Hash) : Reference :=
  {| ref_t := HashReference; ref_n := n; ref_h := h; ref_target := "" |}.

(** The method [String] of a reference: the hash, or [ref: target], then
    the name. *)
Definition Reference_String (r : Reference) : string :=
  match ref_t r with
  | HashReference => Hash_String (ref_h r) +:+ " " +:+ ref_n r
  | SymbolicReference => "ref: " +:+ ref_target r +:+ " " +:+ ref_n r
  end.

(** The verb [%s] applied to a [*plumbing.Reference]: its [String] method;
    for a nil pointer the method panics and [fmt] prints [<nil>]. *)
Definition fmt_s_Reference (r : option Reference) : string :=
  match r with
  | Some r => Reference_String r
  | None => "<nil>"
  end.

(** [git.StatusCode], [git.FileStatus] and [git.Status] (a map from path to
    file status) with [Status.IsClean]. *)
Inductive StatusCode :=
| Unmodified | Untracked | Modified | Added | Deleted | Renamed | Copied
| UpdatedButUnmerged.

Global Instance StatusCode_eq_dec : EqDecision StatusCode.
Proof. solve_decision. Defined.

Record FileStatus := mkFileStatus { Staging : StatusCode; Worktree_code : StatusCode }.

Definition file_unmodified (fs : FileStatus) : bool :=
  bool_decide (Worktree_code fs = Unmodified) && bool_decide (Staging fs = Unmodified).

Definition IsClean (s : gmap string FileStatus) : bool :=
  forallb (fun kv => file_unmodified (snd kv)) (map_to_list s).

(** [http.BasicAuth], [git.CloneOptions], [git.CheckoutOptions],
    [object.Signature], [git.CommitOptions], [git.PushOptions]: the fields
    the file sets; the others keep Go's zero value. *)
Record BasicAuth := mkBasicAuth { Username : string; Password : string }.

Record CloneOptions := mkCloneOptions {
  clone_ReferenceName : ReferenceName;
  clone_URL : string;
  clone_Auth : BasicAuth
}.

Record CheckoutOptions := mkCheckoutOptions {
  checkout_Branch : ReferenceName;
  checkout_Create : bool
}.

(** [time.Time] as an instant on the wall clock. *)
Definition Time := Z.

Record Signature := mkSignature { Name : string; Email : string; When : Time }.

Record CommitOptions := mkCommitOptions {
  commit_All : bool;
  commit_Author : Signature;
  commit_Committer : Signature
}.

Record PushOptions := mkPushOptions {
  push_RefSpecs : list string;
  push_Auth : BasicAuth
}.

(** The pointers [*git.Repository] and [*github.Client] are handles; a
    [*git.Worktree] gives [Filesystem.Root()]. *)
Inductive GitRepository := RepositoryPtr (addr : N).
Inductive GithubClient := ClientPtr (addr : N).
Record Worktree := mkWorktree { wt_r : GitRepository; Filesystem_Root : string }.

(** [context.Context], passed through to the network calls. *)
Inductive Context := ctx_Background | ctx_WithDeadline (deadline : Time).

End Git.
Export Git.

Module Pkg.

(** Modelled from the spec: the type [GitHubOptions] is declared outside
    [git.go]; the spec calls it AuthConfig, "opaque configuration needed to
    mint tokens (app identity, installation scope)". *)
Record GitHubOptions := mkGitHubOptions { AuthConfig : string }.

(** Modelled from the spec: the type [Repository] is declared outside
    [git.go]; the spec describes it as an "owner/name pair plus a mapping of
    free-form parameters", and its URL pattern is [<owner>/<repo>.git]. *)
Record Repository := mkRepository {
  Owner : string;
  RepoName : string;
  Params : gmap string string
}.

(** Modelled from the spec: the method [FullName] is declared outside
    [git.go]; the remote URL pattern of the spec is
    [https://<git-host>/<owner>/<repo>.git], so it is owner, slash, name. *)
Definition FullName (repo : Repository) : string :=
  Owner repo +:+ "/" +:+ RepoName repo.

(** Modelled from the spec: the type [UpdateOptions] is declared outside
    [git.go]; these are the fields of [UpdateOptions.Git] that the spec lists
    and [commitChanges] reads. *)
Record GitOptions := mkGitOptions {
  StagePatterns : list string;
  StageAllChanged : bool;
  CommitTitle : string;
  CommitBody : string;
  CommitFooter : string;
  AuthorName : string;
  AuthorEmail : string;
  CommitterName : string;
  CommitterEmail : string
}.

(** Modelled from the spec: [UpdateOptions], of which [git.go] reads the
    field [Git] only. *)
Record UpdateOptions := mkUpdateOptions { Git : GitOptions }.

Record switchBranchOptions := mkSwitchBranchOptions {
  BranchName : string;
  CreateBranch : bool
}.

(** The field [BranchName] of [pushOptions] is [push_BranchName] here. *)
Record pushOptions := mkPushOpts {
  GitHubOpts : GitHubOptions;
  push_BranchName : string;
  ForcePush : bool
}.

End Pkg.
Export Pkg.

(** ** Actions, programs and backends *)

Module Effects.

(** The calls [git.go] makes outside itself, with the arguments it passes:
    methods of go-git's repository, reference store and worktree, the clock,
    the token provider [githubClient] of the package, clone and push. *)
Inductive Action : Type :=
| Repository_Worktree (r : GitRepository)
| Repository_Reference (r : GitRepository) (name : ReferenceName) (resolved : bool)
| Storer_SetReference (r : GitRepository) (ref : Reference)
| Worktree_Checkout (w : Worktree) (opts : CheckoutOptions)
| Worktree_Status (w : Worktree)
| Worktree_AddGlob (w : Worktree) (pattern : string)
| Worktree_Commit (w : Worktree) (msg : string) (opts : CommitOptions)
| time_Now
| githubClient (ctx : Context) (options : GitHubOptions)
| git_PlainCloneContext (ctx : Context) (path : string) (isBare : bool) (o : CloneOptions)
| Repository_PushContext (r : GitRepository) (ctx : Context) (o : PushOptions).

(** What each call returns.  A Go result [(T, error)] is a pair; a pointer
    result may be nil ([None]), an [error] may be nil ([None]). *)
Definition answer (a : Action) : Type :=
  match a with
  | Repository_Worktree _ => (option Worktree * option error)%type
  | Repository_Reference _ _ _ => (option Reference * option error)%type
  | Storer_SetReference _ _ => option error
  | Worktree_Checkout _ _ => option error
  | Worktree_Status _ => (gmap string FileStatus * option error)%type
  | Worktree_AddGlob _ _ => option error
  | Worktree_Commit _ _ _ => (Hash * option error)%type
  | time_Now => Time
  | githubClient _ _ => (option GithubClient * string * option error)%type
  | git_PlainCloneContext _ _ _ _ => (option GitRepository * option error)%type
  | Repository_PushContext _ _ _ => option error
  end.

(** A program: it returns, it panics (a nil pointer is dereferenced), or it
    makes a call and goes on with the answer. *)
Inductive Prog (A : Type) : Type :=
| Return (a : A)
| Panic (reason : string)
| Do (a : Action) (k : answer a -> Prog A).
Arguments Return {A} a.
Arguments Panic {A} reason.
Arguments Do {A} a k.

Fixpoint bind {A B} (p : Prog A) (f : A -> Prog B) : Prog B :=
  match p with
  | Return a => f a
  | Panic reason => Panic reason
  | Do a k => Do a (fun r => bind (k r) f)
  end.

Global Instance Prog_ret : MRet Prog := @Return.
Global Instance Prog_bind : MBind Prog := fun A B f p => bind p f.

Definition call (a : Action) : Prog (answer a) := Do a Return.

(** Using a pointer: a nil pointer panics. *)
Definition deref {A} (p : option A) : Prog A :=
  match p with
  | Some x => Return x
  | None => Panic "invalid memory address or nil pointer dereference"
  end.

(** One call with its answer, as it appears in the trace of a run. *)
Definition Event : Type := { a : Action & answer a }.
Definition event (a : Action) (r : answer a) : Event := existT a r.
Definition action_of (e : Event) : Action := projT1 e.

(** A backend answers every call and updates its state. *)
Definition Backend (W : Type) : Type := forall a : Action, W -> answer a * W.

Inductive Outcome (A : Type) : Type :=
| Returned (a : A)
| Panicked (reason : string).
Arguments Returned {A} a.
Arguments Panicked {A} reason.

(** The result of a run: the calls made in order with their answers, the
    final state of the backend, and how the program ended. *)
Record Run (W A : Type) := mkRun {
  trace : list Event;
  final : W;
  outcome : Outcome A
}.
Arguments mkRun {W A} trace final outcome.
Arguments trace {W A} r.
Arguments final {W A} r.
Arguments outcome {W A} r.

Definition after {W A} (e : Event) (rest : Run W A) : Run W A :=
  mkRun (e :: trace rest) (final rest) (outcome rest).

Fixpoint run {W A} (b : Backend W) (p : Prog A) (w : W) : Run W A :=
  match p with
  | Return a => mkRun [] w (Returned a)
  | Panic reason => mkRun [] w (Panicked reason)
  | Do a k => let '(r, w1) := b a w in after (event a r) (run b (k r) w1)
  end.

End Effects.
Export Effects.

(** ** The functions of Go's standard library that the file calls *)

Module GoLib.

Definition bytes := list ascii.
Definition byte_val (c : ascii) : N := N_of_ascii c.

(** *** [unicode/utf8] *)

Definition RuneError : N := 0xFFFD.
Definition RuneSelf : N := 0x80.
Definition UTFMax : nat := 4.

(** The table [first]: for each first byte, the size of the sequence in the
    low bits and the index of the range accepted for the second byte in the
    high bits; [0xF0] marks ASCII and [0xF1] an invalid first byte. *)
Definition first (b : N) : N :=
  if (b <? 0x80)%N then 0xF0
  else if (b <? 0xC2)%N then 0xF1
  else if (b <? 0xE0)%N then 0x02
  else if (b =? 0xE0)%N then 0x13
  else if (b <? 0xED)%N then 0x03
  else if (b =? 0xED)%N then 0x23
  else if (b <? 0xF0)%N then 0x03
  else if (b =? 0xF0)%N then 0x34
  else if (b <? 0xF4)%N then 0x04
  else if (b =? 0xF4)%N then 0x44
  else 0xF1.

Definition acceptRanges (i : N) : N * N :=
  match i with
  | 0 => (0x80, 0xBF)
  | 1 => (0xA0, 0xBF)
  | 2 => (0x80, 0x9F)
  | 3 => (0x90, 0xBF)
  | 4 => (0x80, 0x8F)
  | _ => (0, 0)
  end%N.

Definition locb : N := 0x80.
Definition hicb : N := 0xBF.
Definition maskx : N := 0x3F.
Definition mask2 : N := 0x1F.
Definition mask3 : N := 0x0F.
Definition mask4 : N := 0x07.

Definition outside (lo hi b : N) : bool := ((b <? lo) || (hi <? b))%N.

(** [utf8.DecodeRuneInString]: the first rune of [s] and its width in bytes;
    [(RuneError, 0)] for the empty string and [(RuneError, 1)] for an
    invalid encoding. *)
Definition DecodeRuneInString (s : bytes) : N * nat :=
  match s with
  | [] => (RuneError, 0)
  | c0 :: t0 =>
    let s0 := byte_val c0 in
    let x := first s0 in
    if (0xF0 <=? x)%N then ((if (x =? 0xF0)%N then s0 else RuneError), 1)
    else
      let sz := N.to_nat (N.land x 7) in
      let '(lo, hi) := acceptRanges (N.shiftr x 4) in
      if (List.length s <? sz)%nat then (RuneError, 1)
      else match t0 with
      | [] => (RuneError, 1)
      | c1 :: t1 =>
        let s1 := byte_val c1 in
        if outside lo hi s1 then (RuneError, 1)
        else if (sz <=? 2)%nat
        then (N.lor (N.shiftl (N.land s0 mask2) 6) (N.land s1 maskx), 2)
        else match t1 with
        | [] => (RuneError, 1)
        | c2 :: t2 =>
          let s2 := byte_val c2 in
          if outside locb hicb s2 then (RuneError, 1)
          else if (sz <=? 3)%nat
          then (N.lor (N.lor (N.shiftl (N.land s0 mask3) 12)
                             (N.shiftl (N.land s1 maskx) 6))
                      (N.land s2 maskx), 3)
          else match t2 with
          | [] => (RuneError, 1)
          | c3 :: _ =>
            let s3 := byte_val c3 in
            if outside locb hicb s3 then (RuneError, 1)
            else (N.lor (N.lor (N.lor (N.shiftl (N.land s0 mask4) 18)
                                      (N.shiftl (N.land s1 maskx) 12))
                               (N.shiftl (N.land s2 maskx) 6))
                        (N.land s3 maskx), 4)
          end
        end
      end
  end.

(** [utf8.RuneStart]: the byte is not a continuation byte. *)
Definition RuneStart (b : N) : bool := negb (N.land b 0xC0 =? 0x80)%N.

(** The loop of [utf8.DecodeLastRuneInString] that walks back from the byte
    before the last to the limit [lim], on the bytes before the last one in
    reverse order: the number of bytes it steps over before it stops at a
    rune start, or [None] when it passes the limit. *)
Fixpoint back_to_start (before : bytes) (steps : nat) : option nat :=
  match steps, before with
  | S n, c :: before' =>
      if RuneStart (byte_val c) then Some 0
      else option_map S (back_to_start before' n)
  | _, _ => None
  end.

(** [utf8.DecodeLastRuneInString] on [s], given as its bytes in reverse
    order. *)
Definition DecodeLastRune_rev (rs : bytes) : N * nat :=
  match rs with
  | [] => (RuneError, 0)
  | c :: before =>
    let r := byte_val c in
    if (r <? RuneSelf)%N then (r, 1)
    else
      let end_ := List.length rs in
      let lim := end_ - UTFMax in
      (* [start] runs from [end-2] down to [lim]: [end - 1 - lim] steps *)
      let taken :=
        match back_to_start before (end_ - 1 - lim) with
        | Some k => k + 2               (* stopped at [start = end - 2 - k] *)
        | None =>                       (* ran to [lim - 1], or to [0] *)
            if decide (lim = 0) then end_ else end_ - (lim - 1)
        end in
      let chunk := rev (take taken rs) in
      let '(r, size) := DecodeRuneInString chunk in
      if decide (size = taken) then (r, size) else (RuneError, 1)
  end.

(** *** [unicode.IsSpace] *)

Definition IsSpace (r : N) : bool :=
  if (r <=? 0xFF)%N
  then match r with
       | 0x09 | 0x0A | 0x0B | 0x0C | 0x0D | 0x20 | 0x85 | 0xA0 => true
       | _ => false
       end%N
  else ((r =? 0x1680) || ((0x2000 <=? r) && (r <=? 0x200A))
        || ((0x2028 <=? r) && (r <=? 0x2029)) || (r =? 0x202F)
        || (r =? 0x205F) || (r =? 0x3000))%N.

(** The table [asciiSpace] of package [strings]. *)
Definition asciiSpace (b : N) : bool :=
  match b with
  | 0x09 | 0x0A | 0x0B | 0x0C | 0x0D | 0x20 => true
  | _ => false
  end%N.

(** *** [strings.TrimSpace] *)

(** [strings.TrimLeftFunc(s, f)]: [s] from the first rune that does not
    satisfy [f]; [skip] counts the bytes of the current rune still to pass. *)
Fixpoint TrimLeftFunc_go (f : N -> bool) (skip : nat) (s : bytes) : bytes :=
  match s with
  | [] => []
  | _ :: s' =>
    match skip with
    | S n => TrimLeftFunc_go f n s'
    | O =>
      let '(r, size) := DecodeRuneInString s in
      if f r then TrimLeftFunc_go f (size - 1) s' else s
    end
  end.
Definition TrimLeftFunc (s : bytes) (f : N -> bool) : bytes := TrimLeftFunc_go f 0 s.

(** [lastIndexFunc(s, f, false)] of package [strings], on the reversed
    bytes of [s]: runes are decoded from the end with
    [DecodeLastRuneInString]; the index where the last rune that does not
    satisfy [f] starts, or [None] for [-1]. *)
Fixpoint lastIndexFunc_go (f : N -> bool) (skip : nat) (rs : bytes) : option nat :=
  match rs with
  | [] => None
  | _ :: rs' =>
    match skip with
    | S n => lastIndexFunc_go f n rs'
    | O =>
      let '(r, size) := DecodeLastRune_rev rs in
      if f r then lastIndexFunc_go f (size - 1) rs'
      else Some (List.length rs - size)
    end
  end.
Definition lastIndexFunc (s : bytes) (f : N -> bool) : option nat :=
  lastIndexFunc_go f 0 (rev s).

(** [strings.TrimRightFunc(s, f)]: [s] up to the end of the rune found by
    [lastIndexFunc], whose width is read by decoding forward from it when
    its first byte is outside ASCII. *)
Definition TrimRightFunc (s : bytes) (f : N -> bool) : bytes :=
  match lastIndexFunc s f with
  | Some i =>
    match drop i s with
    | c :: _ =>
      if (RuneSelf <=? byte_val c)%N
      then take (i + snd (DecodeRuneInString (drop i s))) s
      else take (i + 1) s
    | [] => take (i + 1) s
    end
  | None => []
  end.

Definition TrimFunc (s : bytes) (f : N -> bool) : bytes :=
  TrimRightFunc (TrimLeftFunc s f) f.

(** The second loop of [TrimSpace], on the reversed bytes of [s[start:]]:
    ASCII spaces are dropped from the end; a byte outside ASCII hands over
    to [TrimRightFunc]. *)
Fixpoint TrimSpace_stop (rs : bytes) : bytes :=
  match rs with
  | [] => []
  | c :: rs' =>
    if (RuneSelf <=? byte_val c)%N then TrimRightFunc (rev rs) IsSpace
    else if asciiSpace (byte_val c) then TrimSpace_stop rs'
    else rev rs
  end.

(** The first loop of [TrimSpace]: ASCII spaces are dropped from the start;
    a byte outside ASCII hands over to [TrimFunc]. *)
Fixpoint TrimSpace_start (s : bytes) : bytes :=
  match s with
  | [] => []
  | c :: s' =>
    if (RuneSelf <=? byte_val c)%N then TrimFunc s IsSpace
    else if asciiSpace (byte_val c) then TrimSpace_start s'
    else TrimSpace_stop (rev s)
  end.

Definition TrimSpace (s : string) : string :=
  string_of_list_ascii (TrimSpace_start (list_ascii_of_string s)).

(** *** [path/filepath.Base] (Unix) *)

Definition IsPathSeparator (c : ascii) : bool := bool_decide (c = "/"%char).

Fixpoint strip_separators (rs : bytes) : bytes :=
  match rs with
  | c :: rs' => if IsPathSeparator c then strip_separators rs' else rs
  | [] => []
  end.

Fixpoint last_element (rs : bytes) : bytes :=
  match rs with
  | c :: rs' => if IsPathSeparator c then [] else c :: last_element rs'
  | [] => []
  end.

(** [filepath.Base]: [.] for the empty path; trailing separators are
    stripped, the last element is kept; [/] if nothing is left. *)
Definition filepath_Base (path : string) : string :=
  if decide (path = "") then "."
  else
    let stripped := strip_separators (rev (list_ascii_of_string path)) in
    let elem := rev (last_element stripped) in
    if decide (elem = []) then "/" else string_of_list_ascii elem.

End GoLib.
Export GoLib.

(** ** The operations of [repository/git.go] *)

Module Repo.

(** Lines 21-25 of [cloneGitRepository]: the reference to clone. *)
Definition cloneReference (repo : Repository) : ReferenceName :=
  let branch := "HEAD" in
  let branch :=
    match Params repo !! "branch" with
    | Some b => if decide (TrimSpace b ≠ "") then "refs/heads/" +:+ b else branch
    | None => branch
    end in
  branch.

Definition cloneURL (repo : Repository) : string :=
  "https://github.worldpay.com/" +:+ FullName repo +:+ ".git".

Definition cloneGitRepository (ctx : Context) (repo : Repository)
    (localPath : string) (options : GitHubOptions)
    : Prog (option GitRepository * option error) :=
  let url := cloneURL repo in
  let referenceName := cloneReference repo in
  '(_, token, err) ← call (githubClient ctx options);
  match err with
  | Some err => mret (None, Some (Errorf_w "failed to create github client: " err))
  | None =>
    '(gitRepo, err) ← call (git_PlainCloneContext ctx localPath false
      {| clone_ReferenceName := referenceName;
         clone_URL := url;
         clone_Auth := {| Username := "x-access-token"; Password := token |} |});
    match err with
    | Some err =>
        mret (None, Some (Errorf_w
          ("failed to clone git repository from " +:+ url +:+ " to "
             +:+ localPath +:+ ": ") err))
    | None => mret (gitRepo, None)
    end
  end.

Definition switchBranch (ctx : Context) (gitRepo : GitRepository)
    (opts : switchBranchOptions) : Prog (option error) :=
  '(workTree, err) ← call (Repository_Worktree gitRepo);
  match err with
  | Some err => mret (Some (Errorf_w "failed to open worktree: " err))
  | None =>
    workTree ← deref workTree;
    let rootPath := Filesystem_Root workTree in
    let repoName := filepath_Base rootPath in
    let branchRefName := NewBranchReferenceName (BranchName opts) in
    let checkout :=
      err ← call (Worktree_Checkout workTree
        {| checkout_Branch := branchRefName; checkout_Create := CreateBranch opts |});
      match err with
      | Some err =>
          mret (Some (Errorf_w
            ("failed to checkout the branch " +:+ BranchName opts +:+ ": ") err))
      | None => mret None
      end in
    if negb (CreateBranch opts) then
      let remoteBranchRefName := NewRemoteReferenceName "origin" (BranchName opts) in
      '(remoteBranchRef, err) ← call (Repository_Reference gitRepo remoteBranchRefName true);
      match err with
      | Some err =>
          mret (Some (Errorf_w
            ("failed to get the reference for " +:+ fmt_s_Reference remoteBranchRef
               +:+ ": ") err))
      | None =>
        remoteBranchRef ← deref remoteBranchRef;
        let branchRef := NewHashReference branchRefName (ref_h remoteBranchRef) in
        err ← call (Storer_SetReference gitRepo branchRef);
        match err with
        | Some err =>
            mret (Some (Errorf_w
              ("failed to store the reference for branch " +:+ BranchName opts
                 +:+ ": ") err))
        | None => checkout
        end
      end
    else checkout
  end.

(** Lines 133-142 of [commitChanges]: the commit message. *)
Definition commitMsg (options : UpdateOptions) : string :=
  let commitMsg := new_Builder in
  let commitMsg := WriteString commitMsg (CommitTitle (Git options)) in
  let commitMsg :=
    if (0 <? String.length (CommitBody (Git options)))%nat
    then WriteString (WriteString commitMsg (LF +:+ LF)) (CommitBody (Git options))
    else commitMsg in
  let commitMsg :=
    if (0 <? String.length (CommitFooter (Git options)))%nat
    then WriteString (WriteString commitMsg (LF +:+ LF +:+ "-- " +:+ LF))
                     (CommitFooter (Git options))
    else commitMsg in
  Builder_String commitMsg.

(** Lines 145-157: the commit options, with one clock reading for both
    signatures. *)
Definition commitOptions (options : UpdateOptions) (now : Time) : CommitOptions :=
  {| commit_All := StageAllChanged (Git options);
     commit_Author := {| Name := AuthorName (Git options);
                         Email := AuthorEmail (Git options);
                         When := now |};
     commit_Committer := {| Name := CommitterName (Git options);
                            Email := CommitterEmail (Git options);
                            When := now |} |}.

(** Lines 125-130: the staging loop; [Some] is the error the function
    returns from inside the loop. *)
Fixpoint stagePatterns (workTree : Worktree) (patterns : list string)
    : Prog (option error) :=
  match patterns with
  | [] => Return None
  | pattern :: rest =>
    Do (Worktree_AddGlob workTree pattern) (fun err =>
      match err with
      | Some err =>
          Return (Some (Errorf_w
            ("failed to stage files using pattern " +:+ pattern +:+ ": ") err))
      | None => stagePatterns workTree rest
      end)
  end.

Definition commitChanges (ctx : Context) (gitRepo : GitRepository)
    (options : UpdateOptions) : Prog (bool * option error) :=
  '(workTree, err) ← call (Repository_Worktree gitRepo);
  match err with
  | Some err => mret (false, Some (Errorf_w "failed to open worktree: " err))
  | None =>
    workTree ← deref workTree;
    let rootPath := Filesystem_Root workTree in
    let repoName := filepath_Base rootPath in
    '(status, err) ← call (Worktree_Status workTree);
    match err with
    | Some err =>
        mret (false, Some (Errorf_w "failed to get the worktree status: " err))
    | None =>
      if IsClean status then mret (false, None)
      else
        staged ← stagePatterns workTree (StagePatterns (Git options));
        match staged with
        | Some err => mret (false, Some err)
        | None =>
          now ← call time_Now;
          '(commit, err) ← call (Worktree_Commit workTree (commitMsg options)
                                   (commitOptions options now));
          match err with
          | Some err => mret (false, Some (Errorf_w "failed to commit: " err))
          | None => mret (true, None)
          end
        end
    end
  end.

(** Lines 185-190 of [pushChanges]: the refspec. *)
Definition refSpec (opts : pushOptions) : string :=
  let refSpec :=
    "refs/heads/" +:+ push_BranchName opts +:+ ":refs/heads/" +:+ push_BranchName opts in
  if ForcePush opts then "+" +:+ refSpec else refSpec.

Definition pushChanges (ctx : Context) (gitRepo : GitRepository)
    (opts : pushOptions) : Prog (option error) :=
  '(workTree, err) ← call (Repository_Worktree gitRepo);
  match err with
  | Some err => mret (Some (Errorf_w "failed to open worktree: " err))
  | None =>
    workTree ← deref workTree;
    let rootPath := Filesystem_Root workTree in
    let repoName := filepath_Base rootPath in
    let refSpec := refSpec opts in
    '(_, token, err) ← call (githubClient ctx (GitHubOpts opts));
    match err with
    | Some err => mret (Some (Errorf_w "failed to create github client: " err))
    | None =>
      err ← call (Repository_PushContext gitRepo ctx
        {| push_RefSpecs := [refSpec];
           push_Auth := {| Username := "x-access-token"; Password := token |} |});
      match err with
      | Some err =>
          mret (Some (Errorf_w
            ("failed to push branch " +:+ push_BranchName opts +:+ " to "
               +:+ repoName +:+ ": ") err))
      | None => mret None
      end
    end
  end.

End Repo.
Export Repo.

(** ** An in-memory backend

    A repository held in memory, answering the calls the way go-git
    documents them: a bare repository has no worktree
    ([ErrIsBareRepository]); a missing reference is [ErrReferenceNotFound]
    with a nil reference; [AddGlob] fails with [ErrGlobNoMatches] when the
    pattern matches no file; a commit of an unchanged index is
    [ErrEmptyCommit].  What a glob pattern matches and what the token
    provider answers are given as data. *)

Module Mem.

Definition ErrIsBareRepository := errors_New "worktree not available in a bare repository".
Definition ErrReferenceNotFound := errors_New "reference not found".
Definition ErrGlobNoMatches := errors_New "glob pattern did not match any files".
Definition ErrEmptyCommit := errors_New "cannot create empty commit: clean working tree".
Definition ErrBranchExists := errors_New "branch already exists".
Definition ErrNoToken := errors_New "no token available".

Record Store := mkStore {
  st_repo : GitRepository;                 (* the handle of the clone *)
  st_bare : bool;
  st_root : string;                        (* root of the worktree *)
  st_refs : gmap string Reference;         (* the reference store *)
  st_head : ReferenceName;                 (* the branch HEAD points to *)
  st_status : gmap string FileStatus;      (* worktree against index and HEAD *)
  st_glob : gmap string (error + list string);  (* answer of Glob per pattern *)
  st_commits : list (Hash * string * CommitOptions);  (* commit objects, newest first *)
  st_clock : Time;
  st_tokens : list (error + string);       (* answers of the token provider, in order *)
  st_remote : gmap string Hash;            (* branches of the remote *)
  st_sent : list (Action)                  (* network calls that went through *)
}.

Definition set_refs (f : gmap string Reference -> gmap string Reference) (s : Store) :=
  mkStore (st_repo s) (st_bare s) (st_root s) (f (st_refs s)) (st_head s) (st_status s)
          (st_glob s) (st_commits s) (st_clock s) (st_tokens s) (st_remote s) (st_sent s).
Definition set_head (h : ReferenceName) (s : Store) :=
  mkStore (st_repo s) (st_bare s) (st_root s) (st_refs s) h (st_status s)
          (st_glob s) (st_commits s) (st_clock s) (st_tokens s) (st_remote s) (st_sent s).
Definition set_status (f : gmap string FileStatus -> gmap string FileStatus) (s : Store) :=
  mkStore (st_repo s) (st_bare s) (st_root s) (st_refs s) (st_head s) (f (st_status s))
          (st_glob s) (st_commits s) (st_clock s) (st_tokens s) (st_remote s) (st_sent s).
Definition set_commits (c : list (Hash * string * CommitOptions)) (s : Store) :=
  mkStore (st_repo s) (st_bare s) (st_root s) (st_refs s) (st_head s) (st_status s)
          (st_glob s) c (st_clock s) (st_tokens s) (st_remote s) (st_sent s).
Definition set_clock (t : Time) (s : Store) :=
  mkStore (st_repo s) (st_bare s) (st_root s) (st_refs s) (st_head s) (st_status s)
          (st_glob s) (st_commits s) t (st_tokens s) (st_remote s) (st_sent s).
Definition set_tokens (t : list (error + string)) (s : Store) :=
  mkStore (st_repo s) (st_bare s) (st_root s) (st_refs s) (st_head s) (st_status s)
          (st_glob s) (st_commits s) (st_clock s) t (st_remote s) (st_sent s).
Definition set_remote (f : gmap string Hash -> gmap string Hash) (s : Store) :=
  mkStore (st_repo s) (st_bare s) (st_root s) (st_refs s) (st_head s) (st_status s)
          (st_glob s) (st_commits s) (st_clock s) (st_tokens s) (f (st_remote s)) (st_sent s).
Definition sent (a : Action) (s : Store) :=
  mkStore (st_repo s) (st_bare s) (st_root s) (st_refs s) (st_head s) (st_status s)
          (st_glob s) (st_commits s) (st_clock s) (st_tokens s) (st_remote s) (a :: st_sent s).

Definition ZeroHash : Hash := mkHash "0000000000000000000000000000000000000000".

(** Resolving a reference follows symbolic references, up to a bound. *)
Fixpoint resolve (fuel : nat) (refs : gmap string Reference) (name : ReferenceName)
    : option Reference :=
  match refs !! name with
  | None => None
  | Some r =>
    match ref_t r, fuel with
    | HashReference, _ => Some r
    | SymbolicReference, S n => resolve n refs (ref_target r)
    | SymbolicReference, O => None
    end
  end.

Definition head_hash (s : Store) : Hash :=
  match resolve 8 (st_refs s) (st_head s) with
  | Some r => ref_h r
  | None => ZeroHash
  end.

(** Staging a file moves its worktree change to the index. *)
Definition stage_file (st : gmap string FileStatus) (path : string)
    : gmap string FileStatus :=
  match st !! path with
  | Some fs =>
    match Worktree_code fs with
    | Unmodified => st
    | Untracked => <[path := mkFileStatus Added Unmodified]> st
    | c => <[path := mkFileStatus c Unmodified]> st
    end
  | None => st
  end.

(** [CommitOptions.All]: every modified or deleted tracked file is staged. *)
Definition stage_tracked (st : gmap string FileStatus) : gmap string FileStatus :=
  (fun fs => match Worktree_code fs with
             | Modified | Deleted => mkFileStatus (Worktree_code fs) Unmodified
             | _ => fs
             end) <$> st.

Definition has_staged (st : gmap string FileStatus) : bool :=
  existsb (fun kv => negb (bool_decide (Staging (snd kv) = Unmodified))) (map_to_list st).

(** After a commit the staged entries are part of HEAD. *)
Definition committed (st : gmap string FileStatus) : gmap string FileStatus :=
  (fun fs => mkFileStatus Unmodified (Worktree_code fs)) <$> st.

Definition commit_hash (n : nat) : Hash :=
  mkHash ("c0ffee" +:+ string_of_list_ascii (replicate n "1"%char)).

Definition backend : Backend Store := fun a =>
  match a as a0 return Store -> answer a0 * Store with
  | Repository_Worktree r => fun s =>
      if st_bare s then ((None, Some ErrIsBareRepository), s)
      else ((Some (mkWorktree r (st_root s)), None), s)
  | Repository_Reference r name resolved => fun s =>
      match (if resolved then resolve 8 (st_refs s) name else st_refs s !! name) with
      | Some ref => ((Some ref, None), s)
      | None => ((None, Some ErrReferenceNotFound), s)
      end
  | Storer_SetReference r ref => fun s =>
      (None, set_refs (insert (ref_n ref) ref) s)
  | Worktree_Checkout w opts => fun s =>
      if checkout_Create opts then
        match st_refs s !! checkout_Branch opts with
        | Some _ => (Some ErrBranchExists, s)
        | None =>
          (None, set_head (checkout_Branch opts)
                   (set_refs (insert (checkout_Branch opts)
                                (NewHashReference (checkout_Branch opts) (head_hash s))) s))
        end
      else
        match st_refs s !! checkout_Branch opts with
        | Some _ => (None, set_head (checkout_Branch opts) s)
        | None => (Some ErrReferenceNotFound, s)
        end
  | Worktree_Status w => fun s => ((st_status s, None), s)
  | Worktree_AddGlob w pattern => fun s =>
      match default (inr []) (st_glob s !! pattern) with
      | inl err => (Some err, s)
      | inr [] => (Some ErrGlobNoMatches, s)
      | inr files => (None, set_status (fun st => foldl stage_file st files) s)
      end
  | Worktree_Commit w msg opts => fun s =>
      let st := if commit_All opts then stage_tracked (st_status s) else st_status s in
      if has_staged st then
        let h := commit_hash (List.length (st_commits s)) in
        ((h, None),
         set_commits ((h, msg, opts) :: st_commits s)
           (set_refs (insert (st_head s) (NewHashReference (st_head s) h))
              (set_status (fun _ => committed st) s)))
      else ((ZeroHash, Some ErrEmptyCommit), s)
  | time_Now => fun s => (st_clock s, set_clock (st_clock s + 1)%Z s)
  | githubClient ctx options => fun s =>
      match st_tokens s with
      | inr token :: rest => ((Some (ClientPtr 1), token, None), set_tokens rest s)
      | inl err :: rest => ((None, "", Some err), set_tokens rest s)
      | [] => ((None, "", Some ErrNoToken), s)
      end
  | git_PlainCloneContext ctx path isBare o => fun s =>
      ((Some (st_repo s), None), sent a s)
  | Repository_PushContext r ctx o => fun s =>
      (None, set_remote (insert (st_head s) (head_hash s)) (sent a s))
  end.

End Mem.

(** ** Sample repositories *)

Module Samples.
Import Mem.

Definition hash_a : Hash := mkHash "a3f5c1d2e4b6978812345678901234567890abcd".
Definition hash_b : Hash := mkHash "b7e2d9c4f1a0563412345678901234567890ef01".

Definition repo1 : GitRepository := RepositoryPtr 1.

(** A clone of a repository with branches [main] and [release] on the
    remote, [main] checked out and nothing changed in the worktree. *)
Definition clean_store : Store :=
  {| st_repo := repo1;
     st_bare := false;
     st_root := "/tmp/octopilot/my-repo";
     st_refs := {[ "refs/heads/main" := NewHashReference "refs/heads/main" hash_a;
                   "refs/remotes/origin/main" :=
                     NewHashReference "refs/remotes/origin/main" hash_a;
                   "refs/remotes/origin/release" :=
                     NewHashReference "refs/remotes/origin/release" hash_b ]};
     st_head := "refs/heads/main";
     st_status := {[ "README.md" := mkFileStatus Unmodified Unmodified ]};
     st_glob := {[ "*.md" := inr ["README.md"] ]};
     st_commits := [];
     st_clock := 1700000000%Z;
     st_tokens := [inr "token-1"; inr "token-2"];
     st_remote := {[ "refs/heads/main" := hash_a; "refs/heads/release" := hash_b ]};
     st_sent := [] |}.

(** The same clone after [main.go] was edited and [notes.txt] created; the
    token provider will answer once and then fail. *)
Definition dirty_store : Store :=
  {| st_repo := repo1;
     st_bare := false;
     st_root := "/tmp/octopilot/my-repo";
     st_refs := st_refs clean_store;
     st_head := "refs/heads/main";
     st_status := {[ "README.md" := mkFileStatus Unmodified Unmodified;
                     "main.go" := mkFileStatus Unmodified Modified;
                     "notes.txt" := mkFileStatus Untracked Untracked ]};
     st_glob := {[ "*.md" := inr ["README.md"]; "*.go" := inr ["main.go"];
                   "*.txt" := inr ["notes.txt"];
                   "[" := inl (errors_New "syntax error in pattern") ]};
     st_commits := [];
     st_clock := 1700000000%Z;
     st_tokens := [inr "token-1"; inl (errors_New "401 Bad credentials")];
     st_remote := st_remote clean_store;
     st_sent := [] |}.

Definition git_options (patterns : list string) : UpdateOptions :=
  {| Git := {| StagePatterns := patterns;
               StageAllChanged := false;
               CommitTitle := "T";
               CommitBody := "B";
               CommitFooter := "F";
               AuthorName := "octopilot";
               AuthorEmail := "octopilot@example.com";
               CommitterName := "bot";
               CommitterEmail := "bot@example.com" |} |}.

Definition wt1 : Worktree := mkWorktree repo1 "/tmp/octopilot/my-repo".
Definition ctx0 : Context := ctx_Background.
Definition auth0 : GitHubOptions := mkGitHubOptions "app 4242, installation 7".
Definition my_repo : Repository :=
  mkRepository "acme" "my-repo" {[ "branch" := "release" ]}.

(** The state of the dirty clone after a commit. *)
Definition committed_store : Store :=
  final (run backend (commitChanges ctx0 repo1 (git_options ["*.go"; "*.txt"])) dirty_store).

(** A bare repository: it has no worktree. *)
Definition bare_store : Store :=
  {| st_repo := repo1;
     st_bare := true;
     st_root := "";
     st_refs := st_refs clean_store;
     st_head := "refs/heads/main";
     st_status := ∅;
     st_glob := ∅;
     st_commits := [];
     st_clock := 1700000000%Z;
     st_tokens := [inr "token-1"];
     st_remote := st_remote clean_store;
     st_sent := [] |}.

(** The in-memory backend in front of a remote that rejects every push. *)
Definition rejecting (err : error) : Backend Store := fun a =>
  match a as a0 return Store -> answer a0 * Store with
  | Repository_PushContext _ _ _ => fun s => (Some err, s)
  | a0 => backend a0
  end.


End Samples.

(** ** The vocabulary of the properties

    The kinds of call, the paths through each operation, the wording of the
    specification for the values the operations build, and the kinds of
    error. *)

Module Vocabulary.

(** The kinds of call the properties speak of. *)
Definition is_stage (a : Action) : bool :=
  match a with Worktree_AddGlob _ _ => true | _ => false end.
Definition is_commit (a : Action) : bool :=
  match a with Worktree_Commit _ _ _ => true | _ => false end.
Definition is_checkout (a : Action) : bool :=
  match a with Worktree_Checkout _ _ => true | _ => false end.
Definition is_push (a : Action) : bool :=
  match a with Repository_PushContext _ _ _ => true | _ => false end.

(** Calls that change the repository, its worktree or the remote. *)
Definition writes (a : Action) : bool :=
  match a with
  | Storer_SetReference _ _ | Worktree_Checkout _ _ | Worktree_AddGlob _ _
  | Worktree_Commit _ _ _ | git_PlainCloneContext _ _ _ _
  | Repository_PushContext _ _ _ => true
  | _ => false
  end.

Definition calls {W A} (r : Run W A) : list Action := map action_of (trace r).

(** The calls of a staging loop over patterns that were all accepted. *)
Definition staged (workTree : Worktree) (patterns : list string) : list Event :=
  map (fun p => event (Worktree_AddGlob workTree p) None) patterns.

(** The two ways the staging loop ends: every pattern was accepted, or the
    loop stopped at the first pattern whose staging failed. *)
Inductive stage_path (workTree : Worktree) :
    list string -> list Event -> option error -> Prop :=
| stage_all patterns :
    stage_path workTree patterns (staged workTree patterns) None
| stage_stop pre pattern post err :
    stage_path workTree (pre ++ pattern :: post)
      (staged workTree pre ++ [event (Worktree_AddGlob workTree pattern) (Some err)])
      (Some (Errorf_w ("failed to stage files using pattern " +:+ pattern +:+ ": ") err)).

(** The paths through [commitChanges], one for each [return] and one for
    the nil worktree: the calls made with their answers, and how the
    function ends. *)
Inductive commitChanges_path (gitRepo : GitRepository) (options : UpdateOptions) :
    list Event -> Outcome (bool * option error) -> Prop :=
| cc_worktree_error workTree err :
    commitChanges_path gitRepo options
      [event (Repository_Worktree gitRepo) (workTree, Some err)]
      (Returned (false, Some (Errorf_w "failed to open worktree: " err)))
| cc_worktree_nil reason :
    commitChanges_path gitRepo options
      [event (Repository_Worktree gitRepo) (None, None)]
      (Panicked reason)
| cc_status_error workTree status err :
    commitChanges_path gitRepo options
      [event (Repository_Worktree gitRepo) (Some workTree, None);
       event (Worktree_Status workTree) (status, Some err)]
      (Returned (false, Some (Errorf_w "failed to get the worktree status: " err)))
| cc_clean workTree status :
    IsClean status = true ->
    commitChanges_path gitRepo options
      [event (Repository_Worktree gitRepo) (Some workTree, None);
       event (Worktree_Status workTree) (status, None)]
      (Returned (false, None))
| cc_stage_error workTree status stage err :
    IsClean status = false ->
    stage_path workTree (StagePatterns (Git options)) stage (Some err) ->
    commitChanges_path gitRepo options
      (event (Repository_Worktree gitRepo) (Some workTree, None)
       :: event (Worktree_Status workTree) (status, None) :: stage)
      (Returned (false, Some err))
| cc_commit_error workTree status now commit err :
    IsClean status = false ->
    commitChanges_path gitRepo options
      (event (Repository_Worktree gitRepo) (Some workTree, None)
       :: event (Worktree_Status workTree) (status, None)
       :: staged workTree (StagePatterns (Git options))
       ++ [event time_Now now;
           event (Worktree_Commit workTree (commitMsg options) (commitOptions options now))
                 (commit, Some err)])
      (Returned (false, Some (Errorf_w "failed to commit: " err)))
| cc_committed workTree status now commit :
    IsClean status = false ->
    commitChanges_path gitRepo options
      (event (Repository_Worktree gitRepo) (Some workTree, None)
       :: event (Worktree_Status workTree) (status, None)
       :: staged workTree (StagePatterns (Git options))
       ++ [event time_Now now;
           event (Worktree_Commit workTree (commitMsg options) (commitOptions options now))
                 (commit, None)])
      (Returned (true, None)).

(** The commit message as the specification words it: the title; for a
    non-empty body two newlines and the body; for a non-empty footer two
    newlines, the separator line, a newline and the footer. *)
Definition spec_commit_message (title body footer : string) : string :=
  title
  +:+ (if decide (body = "") then "" else LF +:+ LF +:+ body)
  +:+ (if decide (footer = "") then "" else LF +:+ LF +:+ "-- " +:+ LF +:+ footer).

(** The answer to a commit call that created a commit object. *)
Definition commit_created (e : Event) : Prop :=
  match e with
  | existT a r =>
    match a as a0 return answer a0 -> Prop with
    | Worktree_Commit _ _ _ => fun r => snd r = None
    | _ => fun _ => False
    end r
  end.

(** How a commit call carries the message of the specification. *)
Definition commits_with (msg : string) (a : Action) : Prop :=
  match a with
  | Worktree_Commit _ m _ => m = msg
  | _ => True
  end.

(** *** Errors *)

(** An error made by [fmt.Errorf(what + "%w", cause)]: its message is the
    description [what] followed by the message of [cause], and [cause] is
    what [errors.Unwrap] gives back. *)
Definition described (what : string) (e : error) : Prop :=
  exists cause, e = wrapError (what +:+ Error cause) cause.

Definition BranchResolutionError (e : error) : Prop :=
  exists what, described ("failed to get the reference for " +:+ what +:+ ": ") e.

(** The error a call reported, if any. *)
Definition reported (e : Event) : option error :=
  match e with
  | existT a r =>
    match a as a0 return answer a0 -> option error with
    | Repository_Worktree _ => snd
    | Repository_Reference _ _ _ => snd
    | Storer_SetReference _ _ => id
    | Worktree_Checkout _ _ => id
    | Worktree_Status _ => snd
    | Worktree_AddGlob _ _ => id
    | Worktree_Commit _ _ _ => snd
    | time_Now => fun _ => None
    | githubClient _ _ => snd
    | git_PlainCloneContext _ _ _ _ => snd
    | Repository_PushContext _ _ _ => id
    end r
  end.

(** No call of the trace reported an error. *)
Definition quiet (tr : list Event) : Prop :=
  Forall (fun ev => reported ev = None) tr.



(** *** switchBranch *)

(** The error [switchBranch] returns after the checkout call. *)
Definition checkout_result (opts : switchBranchOptions) (answered : option error)
    : option error :=
  match answered with
  | Some err =>
      Some (Errorf_w ("failed to checkout the branch " +:+ BranchName opts +:+ ": ") err)
  | None => None
  end.

Definition checkout_call (workTree : Worktree) (opts : switchBranchOptions) : Action :=
  Worktree_Checkout workTree
    {| checkout_Branch := "refs/heads/" +:+ BranchName opts;
       checkout_Create := CreateBranch opts |}.

Definition remote_reference_call (gitRepo : GitRepository) (opts : switchBranchOptions)
    : Action :=
  Repository_Reference gitRepo ("refs/remotes/origin/" +:+ BranchName opts) true.

(** The local branch reference pinned to the hash of the remote one. *)
Definition pinned_reference (opts : switchBranchOptions) (remoteBranchRef : Reference)
    : Reference :=
  {| ref_t := HashReference;
     ref_n := "refs/heads/" +:+ BranchName opts;
     ref_h := ref_h remoteBranchRef;
     ref_target := "" |}.

(** The paths through [switchBranch]. *)
Inductive switchBranch_path (gitRepo : GitRepository) (opts : switchBranchOptions) :
    list Event -> Outcome (option error) -> Prop :=
| sb_worktree_error workTree err :
    switchBranch_path gitRepo opts
      [event (Repository_Worktree gitRepo) (workTree, Some err)]
      (Returned (Some (Errorf_w "failed to open worktree: " err)))
| sb_worktree_nil reason :
    switchBranch_path gitRepo opts
      [event (Repository_Worktree gitRepo) (None, None)]
      (Panicked reason)
| sb_reference_error workTree remoteBranchRef err :
    CreateBranch opts = false ->
    switchBranch_path gitRepo opts
      [event (Repository_Worktree gitRepo) (Some workTree, None);
       event (remote_reference_call gitRepo opts) (remoteBranchRef, Some err)]
      (Returned (Some (Errorf_w
         ("failed to get the reference for " +:+ fmt_s_Reference remoteBranchRef +:+ ": ")
         err)))
| sb_reference_nil workTree reason :
    CreateBranch opts = false ->
    switchBranch_path gitRepo opts
      [event (Repository_Worktree gitRepo) (Some workTree, None);
       event (remote_reference_call gitRepo opts) (None, None)]
      (Panicked reason)
| sb_store_error workTree remoteBranchRef err :
    CreateBranch opts = false ->
    switchBranch_path gitRepo opts
      [event (Repository_Worktree gitRepo) (Some workTree, None);
       event (remote_reference_call gitRepo opts) (Some remoteBranchRef, None);
       event (Storer_SetReference gitRepo (pinned_reference opts remoteBranchRef)) (Some err)]
      (Returned (Some (Errorf_w
         ("failed to store the reference for branch " +:+ BranchName opts +:+ ": ") err)))
| sb_checkout_existing workTree remoteBranchRef answered :
    CreateBranch opts = false ->
    switchBranch_path gitRepo opts
      [event (Repository_Worktree gitRepo) (Some workTree, None);
       event (remote_reference_call gitRepo opts) (Some remoteBranchRef, None);
       event (Storer_SetReference gitRepo (pinned_reference opts remoteBranchRef)) None;
       event (checkout_call workTree opts) answered]
      (Returned (checkout_result opts answered))
| sb_checkout_created workTree answered :
    CreateBranch opts = true ->
    switchBranch_path gitRepo opts
      [event (Repository_Worktree gitRepo) (Some workTree, None);
       event (checkout_call workTree opts) answered]
      (Returned (checkout_result opts answered)).

(** *** cloneGitRepository and pushChanges *)

Definition basic_auth (token : string) : BasicAuth :=
  {| Username := "x-access-token"; Password := token |}.

Definition clone_call (ctx : Context) (repo : Repository) (localPath token : string)
    : Action :=
  git_PlainCloneContext ctx localPath false
    {| clone_ReferenceName := cloneReference repo;
       clone_URL := cloneURL repo;
       clone_Auth := basic_auth token |}.

Definition push_call (gitRepo : GitRepository) (ctx : Context) (opts : pushOptions)
    (token : string) : Action :=
  Repository_PushContext gitRepo ctx
    {| push_RefSpecs := [refSpec opts]; push_Auth := basic_auth token |}.

(** The paths through [cloneGitRepository]. *)
Inductive clone_path (ctx : Context) (repo : Repository) (localPath : string)
    (options : GitHubOptions) :
    list Event -> Outcome (option GitRepository * option error) -> Prop :=
| cl_token_error client token err :
    clone_path ctx repo localPath options
      [event (githubClient ctx options) (client, token, Some err)]
      (Returned (None, Some (Errorf_w "failed to create github client: " err)))
| cl_clone_error client token gitRepo err :
    clone_path ctx repo localPath options
      [event (githubClient ctx options) (client, token, None);
       event (clone_call ctx repo localPath token) (gitRepo, Some err)]
      (Returned (None, Some (Errorf_w
         ("failed to clone git repository from " +:+ cloneURL repo +:+ " to "
            +:+ localPath +:+ ": ") err)))
| cl_cloned client token gitRepo :
    clone_path ctx repo localPath options
      [event (githubClient ctx options) (client, token, None);
       event (clone_call ctx repo localPath token) (gitRepo, None)]
      (Returned (gitRepo, None)).

(** The paths through [pushChanges]. *)
Inductive push_path (ctx : Context) (gitRepo : GitRepository) (opts : pushOptions) :
    list Event -> Outcome (option error) -> Prop :=
| ps_worktree_error workTree err :
    push_path ctx gitRepo opts
      [event (Repository_Worktree gitRepo) (workTree, Some err)]
      (Returned (Some (Errorf_w "failed to open worktree: " err)))
| ps_worktree_nil reason :
    push_path ctx gitRepo opts
      [event (Repository_Worktree gitRepo) (None, None)]
      (Panicked reason)
| ps_token_error workTree client token err :
    push_path ctx gitRepo opts
      [event (Repository_Worktree gitRepo) (Some workTree, None);
       event (githubClient ctx (GitHubOpts opts)) (client, token, Some err)]
      (Returned (Some (Errorf_w "failed to create github client: " err)))
| ps_push_error workTree client token err :
    push_path ctx gitRepo opts
      [event (Repository_Worktree gitRepo) (Some workTree, None);
       event (githubClient ctx (GitHubOpts opts)) (client, token, None);
       event (push_call gitRepo ctx opts token) (Some err)]
      (Returned (Some (Errorf_w
         ("failed to push branch " +:+ push_BranchName opts +:+ " to "
            +:+ filepath_Base (Filesystem_Root workTree) +:+ ": ") err)))
| ps_pushed workTree client token :
    push_path ctx gitRepo opts
      [event (Repository_Worktree gitRepo) (Some workTree, None);
       event (githubClient ctx (GitHubOpts opts)) (client, token, None);
       event (push_call gitRepo ctx opts token) None]
      (Returned None).

(** The refspec as the specification words it: the local branch mapped to
    the remote branch of the same name, after the force marker if any. *)
Definition spec_refspec (branch : string) (force : bool) : string :=
  (if force then "+" else "")
  +:+ "refs/heads/" +:+ branch +:+ ":refs/heads/" +:+ branch.

Definition pushes_with (refspecs : list string) (a : Action) : Prop :=
  match a with
  | Repository_PushContext _ _ o => push_RefSpecs o = refspecs
  | _ => True
  end.

(** *** Blank strings and the reference to clone *)

(** The runes of a string, as [range] and the conversion to [[]rune] decode
    them; [skip] counts the bytes of the current rune still to pass. *)
Fixpoint runes_go (skip : nat) (s : bytes) : list N :=
  match s with
  | [] => []
  | _ :: s' =>
    match skip with
    | S n => runes_go n s'
    | O => let '(r, size) := DecodeRuneInString s in r :: runes_go (size - 1) s'
    end
  end.
Definition runes (s : string) : list N := runes_go 0 (list_ascii_of_string s).

(** A blank string: empty, or every rune of it is white space. *)
Definition blank (s : string) : bool := forallb IsSpace (runes s).

(** The reference to clone as the specification words it: the branch under
    [refs/heads/] when the parameters hold a branch that is not blank, the
    default [HEAD] of the remote otherwise. *)
Definition spec_clone_reference (params : gmap string string) : ReferenceName :=
  match params !! "branch" with
  | Some branch => if blank branch then "HEAD" else "refs/heads/" +:+ branch
  | None => "HEAD"
  end.

Definition clones_reference (ref : ReferenceName) (a : Action) : Prop :=
  match a with
  | git_PlainCloneContext _ _ _ o => clone_ReferenceName o = ref
  | _ => True
  end.

(** *** More kinds of call and of answer *)

Definition is_token (a : Action) : bool :=
  match a with githubClient _ _ => true | _ => false end.
Definition is_clock (a : Action) : bool :=
  match a with time_Now => true | _ => false end.



(** A checkout call that succeeded; a push call that succeeded. *)
Definition checked_out (e : Event) : Prop :=
  match e with
  | existT a r =>
    match a as a0 return answer a0 -> Prop with
    | Worktree_Checkout _ _ => fun r => r = None
    | _ => fun _ => False
    end r
  end.

Definition pushed_ok (e : Event) : Prop :=
  match e with
  | existT a r =>
    match a as a0 return answer a0 -> Prop with
    | Repository_PushContext _ _ _ => fun r => r = None
    | _ => fun _ => False
    end r
  end.

(** A call that answered a nil pointer together with a nil error, where the
    code goes on to use the pointer. *)
Definition nil_without_error (e : Event) : Prop :=
  match e with
  | existT a r =>
    match a as a0 return answer a0 -> Prop with
    | Repository_Worktree _ => fun r => r = (None, None)
    | Repository_Reference _ _ _ => fun r => r = (None, None)
    | _ => fun _ => False
    end r
  end.

(** A commit call whose options are the ones [commitChanges] builds from
    [options]: one instant for both signatures, the configured identities,
    and [All] as configured. *)
Definition commit_signed_as (options : UpdateOptions) (a : Action) : Prop :=
  match a with
  | Worktree_Commit _ _ o =>
      When (commit_Author o) = When (commit_Committer o) ∧
      Name (commit_Author o) = AuthorName (Git options) ∧
      Email (commit_Author o) = AuthorEmail (Git options) ∧
      Name (commit_Committer o) = CommitterName (Git options) ∧
      Email (commit_Committer o) = CommitterEmail (Git options) ∧
      commit_All o = StageAllChanged (Git options)
  | _ => True
  end.

(** The part of a trace before its first commit call. *)
Fixpoint until_commit (tr : list Event) : list Event :=
  match tr with
  | [] => []
  | e :: tr' => if is_commit (action_of e) then [] else e :: until_commit tr'
  end.

(** [options] with the switch [StageAllChanged] set to [flag]. *)
Definition with_StageAllChanged (flag : bool) (options : UpdateOptions) : UpdateOptions :=
  {| Git := {| StagePatterns := StagePatterns (Git options);
               StageAllChanged := flag;
               CommitTitle := CommitTitle (Git options);
               CommitBody := CommitBody (Git options);
               CommitFooter := CommitFooter (Git options);
               AuthorName := AuthorName (Git options);
               AuthorEmail := AuthorEmail (Git options);
               CommitterName := CommitterName (Git options);
               CommitterEmail := CommitterEmail (Git options) |} |}.

(** A name without a path separator. *)
Definition no_separator (name : string) : bool :=
  forallb (fun c => negb (IsPathSeparator c)) (list_ascii_of_string name).


(** The instant a clock call answered. *)
Definition clock_reading (e : Event) : option Time :=
  match e with
  | existT a r =>
    match a as a0 return answer a0 -> option Time with
    | time_Now => fun r => Some r
    | _ => fun _ => None
    end r
  end.


End Vocabulary.
Export Vocabulary.

(** * Proofs *)

(** ** Strings *)

Lemma str_app_cons (x : ascii) (a b : string) : String x a +:+ b = String x (a +:+ b).
Proof. reflexivity. Qed.

Lemma str_app_assoc (a b c : string) : (a +:+ b) +:+ c = a +:+ (b +:+ c).
Proof.
  induction a as [|x a IH]; [reflexivity|]. by rewrite !str_app_cons, IH.
Qed.

Lemma str_app_nil_r (s : string) : s +:+ "" = s.
Proof. induction s as [|x s IH]; [reflexivity|]. by rewrite str_app_cons, IH. Qed.

Lemma str_len_pos (s : string) :
  (0 <? String.length s)%nat = negb (bool_decide (s = "")).
Proof. by destruct s. Qed.




(** ** Running programs *)

Section RunLemmas.
Context {W : Type} (b : Backend W).

Lemma run_Do {A} (a : Action) (k : answer a -> Prog A) w r w1 :
  b a w = (r, w1) -> run b (Do a k) w = after (event a r) (run b (k r) w1).
Proof. intros H. cbn [run]. by rewrite H. Qed.

(** A bind runs its first part and, if that returns, the rest from the
    state it left. *)
Lemma run_bind {A B} (p : Prog A) (f : A -> Prog B) w :
  run b (p ≫= f) w =
    match outcome (run b p w) with
    | Returned a =>
        let r2 := run b (f a) (final (run b p w)) in
        mkRun (trace (run b p w) ++ trace r2) (final r2) (outcome r2)
    | Panicked reason => mkRun (trace (run b p w)) (final (run b p w)) (Panicked reason)
    end.
Proof.
  unfold mbind, Prog_bind. revert w.
  induction p as [a | reason | a k IH]; intros w; cbn [bind run].
  - cbn. by destruct (run b (f a) w).
  - reflexivity.
  - destruct (b a w) as [r w1]. rewrite IH. unfold after. cbn [trace final outcome].
    by destruct (outcome (run b (k r) w1)).
Qed.

End RunLemmas.

(** Unfolds the monad down to [Do] and [Return], leaving [run] in place. *)
Ltac to_calls :=
  cbn [mbind mret Prog_bind Prog_ret bind call deref].

(** Runs the next call with the answer recorded in [H]. *)
Ltac answered H := erewrite run_Do by exact H; cbn beta iota.

(** Finishes a run that has reached its end. *)
Ltac finished := cbn [run after trace final outcome calls map action_of event projT1].

(** ** Blank strings *)

Lemma ascii_byte (c : ascii) :
  (byte_val c <? RuneSelf)%N = true ->
  first (byte_val c) = 0xF0%N ∧ IsSpace (byte_val c) = asciiSpace (byte_val c).
Proof.
  destruct c as [[] [] [] [] [] [] [] []]; vm_compute; intros; (discriminate || (split; reflexivity)).
Qed.

Lemma Decode_ascii (c : ascii) (s : bytes) :
  (byte_val c <? RuneSelf)%N = true -> DecodeRuneInString (c :: s) = (byte_val c, 1).
Proof.
  intros H. unfold DecodeRuneInString. destruct (ascii_byte c H) as [-> _]. reflexivity.
Qed.

Lemma Decode_size (s : bytes) r size :
  DecodeRuneInString s = (r, size) ->
  (size ≤ List.length s)%nat ∧ (s ≠ [] -> (1 ≤ size)%nat).
Proof.
  unfold DecodeRuneInString.
  destruct s as [|c0 t0]; [intros [= <- <-]; split; [cbn; lia|done]|].
  cbn [List.length].
  repeat match goal with
  | |- context [if ?c then _ else _] => destruct c
  | |- context [let '(_, _) := ?p in _] => destruct p
  | |- context [match ?l with [] => _ | _ :: _ => _ end] => destruct l; cbn [List.length]
  | |- (_, _) = (_, _) -> _ => intros [= <- <-]; split; [lia | intros; lia]
  end.
Qed.

(** A decoding that did not fail reads the same from a longer string. *)
Lemma Decode_prefix (p more : bytes) r size :
  DecodeRuneInString p = (r, size) -> r ≠ RuneError ->
  DecodeRuneInString (p ++ more) = (r, size).
Proof.
  unfold DecodeRuneInString.
  destruct p as [|c0 t0]; [by intros [= <- <-]|].
  rewrite <- app_comm_cons.
  destruct (0xF0 <=? first (byte_val c0))%N; [done|].
  destruct (acceptRanges _) as [lo hi].
  set (sz := N.to_nat _).
  destruct (Nat.ltb_spec (List.length (c0 :: t0)) sz) as [|Hlen]; [by intros [= <- <-]|].
  destruct (Nat.ltb_spec (List.length (c0 :: t0 ++ more)) sz) as [Hlen'|_].
  { cbn [List.length] in *. rewrite length_app in Hlen'. lia. }
  destruct t0 as [|c1 t1]; [by intros [= <- <-]|]. rewrite <- app_comm_cons.
  destruct (outside lo hi _); [by intros [= <- <-]|].
  destruct (sz <=? 2)%nat; [done|].
  destruct t1 as [|c2 t2]; [by intros [= <- <-]|]. rewrite <- app_comm_cons.
  destruct (outside locb hicb _); [by intros [= <- <-]|].
  destruct (sz <=? 3)%nat; [done|].
  destruct t2 as [|c3 t3]; [by intros [= <- <-]|]. rewrite <- app_comm_cons.
  done.
Qed.

Lemma IsSpace_RuneError : IsSpace RuneError = false.
Proof. reflexivity. Qed.

Section Trim.
Variable f : N -> bool.

(** [TrimLeftFunc] leaves nothing exactly when every rune satisfies [f]. *)
Lemma TrimLeftFunc_go_nil (skip : nat) (s : bytes) :
  TrimLeftFunc_go f skip s = [] <-> forallb f (runes_go skip s) = true.
Proof.
  revert skip. induction s as [|c s IH]; intros skip; [done|].
  cbn [TrimLeftFunc_go runes_go]. destruct skip as [|n]; [|apply IH].
  destruct (DecodeRuneInString (c :: s)) as [r size]. cbn [forallb].
  destruct (f r); cbn [andb]; [apply IH | done].
Qed.

(** What [TrimLeftFunc] leaves starts with a rune that does not satisfy [f]. *)
Lemma TrimLeftFunc_go_head (skip : nat) (s : bytes) :
  TrimLeftFunc_go f skip s ≠ [] ->
  f (fst (DecodeRuneInString (TrimLeftFunc_go f skip s))) = false.
Proof.
  revert skip. induction s as [|c s IH]; intros skip; [done|].
  cbn [TrimLeftFunc_go]. destruct skip as [|n]; [|apply IH].
  destruct (DecodeRuneInString (c :: s)) as [r size] eqn:Hd.
  destruct (f r) eqn:Hf; [apply IH|]. intros _. by rewrite Hd.
Qed.

End Trim.

(** The rune that [DecodeLastRuneInString] reads has between one byte and
    all the bytes of the string. *)
Lemma DecodeLastRune_rev_size (rs : bytes) r size :
  rs ≠ [] -> DecodeLastRune_rev rs = (r, size) ->
  (1 ≤ size ≤ List.length rs)%nat.
Proof.
  destruct rs as [|c before]; [done|]. intros _. unfold DecodeLastRune_rev.
  destruct (byte_val c <? RuneSelf)%N; [intros [= <- <-]; cbn; lia|].
  set (taken := match back_to_start _ _ with Some _ => _ | None => _ end).
  assert (Htaken : (1 ≤ taken)%nat).
  { subst taken. destruct (back_to_start _ _); [lia|].
    unfold UTFMax. destruct (decide _); cbn [List.length] in *; lia. }
  destruct (DecodeRuneInString _) as [r0 size0] eqn:Hd.
  destruct (decide (size0 = taken)) as [->|]; intros [= <- <-]; [|cbn; lia].
  apply Decode_size in Hd as [Hle Hge].
  rewrite length_rev, length_take in Hle. split; [|lia].
  apply Hge. intros Hnil. apply (f_equal (@List.length _)) in Hnil.
  rewrite length_rev, length_take in Hnil. cbn [List.length] in Hnil. lia.
Qed.

(** A space read from the end of a string that it fills is the rune read
    from its start. *)
Lemma DecodeLastRune_rev_whole (rs : bytes) r :
  DecodeLastRune_rev rs = (r, List.length rs) -> IsSpace r = true ->
  DecodeRuneInString (rev rs) = (r, List.length rs).
Proof.
  destruct rs as [|c before]; [done|]. unfold DecodeLastRune_rev.
  destruct (byte_val c <? RuneSelf)%N eqn:Hc.
  - intros [= <- Hlen] _. destruct before; [|done].
    cbn [rev app]. by rewrite Decode_ascii.
  - set (taken := match back_to_start _ _ with Some _ => _ | None => _ end).
    destruct (DecodeRuneInString _) as [r0 size0] eqn:Hd.
    destruct (decide (size0 = taken)) as [->|]; intros [= <- Hlen] Hsp.
    + clearbody taken. subst taken.
      rewrite (take_ge (c :: before)) in Hd by (cbn [List.length]; lia). exact Hd.
    + by rewrite IsSpace_RuneError in Hsp.
Qed.

(** If every rune read from the end is a space, so is the rune at the start
    of the string. *)
Lemma lastIndexFunc_go_None (rs : bytes) (skip : nat) :
  (skip ≤ List.length rs)%nat ->
  lastIndexFunc_go IsSpace skip rs = None ->
  drop skip rs ≠ [] ->
  exists r size,
    DecodeRuneInString (rev (drop skip rs)) = (r, size) ∧ IsSpace r = true.
Proof.
  revert skip. induction rs as [|c rs IH]; intros skip Hskip; [by destruct skip|].
  destruct skip as [|n]; cbn [lastIndexFunc_go drop].
  2: { apply IH. cbn [List.length] in Hskip. lia. }
  destruct (DecodeLastRune_rev (c :: rs)) as [r size] eqn:Hlast.
  destruct (IsSpace r) eqn:Hsp; [|done]. intros Hnone _.
  pose proof (DecodeLastRune_rev_size (c :: rs) r size ltac:(done) Hlast) as Hsize.
  cbn [List.length] in Hsize.
  destruct (decide (drop (size - 1) rs = [])) as [Hend|Hmore].
  - apply (f_equal (@List.length _)) in Hend. rewrite length_drop in Hend.
    cbn [List.length] in Hend.
    assert (size = List.length (c :: rs)) as -> by (cbn [List.length]; lia).
    exists r, (List.length (c :: rs)). split; [|done].
    by apply DecodeLastRune_rev_whole.
  - destruct (IH (size - 1) ltac:(lia) Hnone Hmore) as (r' & size' & Hd & Hsp').
    exists r', size'. split; [|done].
    rewrite <- (take_drop (size - 1) rs) at 1.
    cbn [rev]. rewrite rev_app_distr, <- app_assoc.
    apply Decode_prefix; [done|]. intros ->. by rewrite IsSpace_RuneError in Hsp'.
Qed.

(** [TrimRightFunc] keeps a string that starts with a rune that is not a
    space. *)
Lemma TrimRightFunc_keeps (t : bytes) :
  t ≠ [] -> IsSpace (fst (DecodeRuneInString t)) = false ->
  TrimRightFunc t IsSpace ≠ [].
Proof.
  intros Ht Hhead. unfold TrimRightFunc, lastIndexFunc.
  destruct (lastIndexFunc_go IsSpace 0 (rev t)) as [i|] eqn:Hidx.
  - assert (Hk : forall k, (1 ≤ k)%nat -> take (i + k) t ≠ []).
    { intros k Hk Hnil. apply (f_equal (@List.length _)) in Hnil.
      rewrite length_take in Hnil. destruct t; [done|]. cbn [List.length] in Hnil. lia. }
    destruct (drop i t) as [|c rest] eqn:Hdrop; [by apply Hk|].
    destruct (RuneSelf <=? byte_val c)%N; [|by apply Hk].
    apply Hk. destruct (DecodeRuneInString (c :: rest)) as [r size] eqn:Hd.
    by apply Decode_size in Hd as [_ ->].
  - exfalso.
    assert (Hne : drop 0 (rev t) ≠ []).
    { rewrite drop_0. intros Hnil. apply Ht. by rewrite <- (rev_involutive t), Hnil. }
    destruct (lastIndexFunc_go_None (rev t) 0 ltac:(lia) Hidx Hne) as (r & size & Hd & Hsp).
    rewrite drop_0, rev_involutive in Hd. rewrite Hd in Hhead. cbn [fst] in Hhead.
    congruence.
Qed.

(** The second loop of [TrimSpace] keeps a string that starts with an ASCII
    byte that is not a space. *)
Lemma TrimSpace_stop_keeps (c : ascii) (rs : bytes) :
  (byte_val c <? RuneSelf)%N = true -> asciiSpace (byte_val c) = false ->
  TrimSpace_stop (rs ++ [c]) ≠ [].
Proof.
  intros Hc Hsp. induction rs as [|d rs IH]; cbn [app TrimSpace_stop].
  - rewrite N.leb_antisym, Hc, Hsp. done.
  - destruct (RuneSelf <=? byte_val d)%N.
    + apply TrimRightFunc_keeps.
      * cbn [rev]. rewrite rev_app_distr. done.
      * cbn [rev]. rewrite rev_app_distr. cbn [rev app]. rewrite Decode_ascii by done.
        cbn [fst]. by destruct (ascii_byte c Hc) as [_ ->].
    + destruct (asciiSpace (byte_val d)); [exact IH|].
      cbn [rev]. rewrite rev_app_distr. done.
Qed.

Lemma TrimSpace_start_nil (s : bytes) :
  TrimSpace_start s = [] <-> forallb IsSpace (runes_go 0 s) = true.
Proof.
  induction s as [|c s IH]; [done|]. cbn [TrimSpace_start].
  destruct (RuneSelf <=? byte_val c)%N eqn:Hc.
  - rewrite <- TrimLeftFunc_go_nil. unfold TrimFunc, TrimLeftFunc. split.
    + intros Hnil. destruct (decide (TrimLeftFunc_go IsSpace 0 (c :: s) = [])) as [|Hne];
        [done|].
      exfalso. eapply TrimRightFunc_keeps; [exact Hne | | exact Hnil].
      by apply TrimLeftFunc_go_head.
    + by intros ->.
  - assert (Hlt : (byte_val c <? RuneSelf)%N = true) by (by rewrite N.ltb_antisym, Hc).
    cbn [runes_go]. rewrite Decode_ascii by done. cbn [forallb Nat.sub].
    destruct (ascii_byte c Hlt) as [_ ->].
    destruct (asciiSpace (byte_val c)) eqn:Hsp; cbn [andb]; [exact IH|].
    split; [|done]. intros Hnil. exfalso.
    apply (TrimSpace_stop_keeps c (rev s) Hlt Hsp). exact Hnil.
Qed.

(** A string is trimmed to nothing exactly when it is blank. *)
Theorem TrimSpace_blank (s : string) : TrimSpace s = "" <-> blank s = true.
Proof.
  unfold TrimSpace, blank, runes. rewrite <- TrimSpace_start_nil.
  destruct (TrimSpace_start (list_ascii_of_string s)); [done|]. split; discriminate.
Qed.

(** ** commitChanges *)

Section CommitChanges.
Context {W : Type} (b : Backend W).

Lemma stagePatterns_runs (workTree : Worktree) (patterns : list string) (w : W) :
  exists staged_err,
    outcome (run b (stagePatterns workTree patterns) w) = Returned staged_err ∧
    stage_path workTree patterns (trace (run b (stagePatterns workTree patterns) w))
               staged_err.
Proof.
  revert w. induction patterns as [|pattern rest IH]; intros w.
  - exists None. split; [reflexivity | apply (stage_all workTree [])].
  - cbn [stagePatterns].
    destruct (b (Worktree_AddGlob workTree pattern) w) as [[err|] w1] eqn:Hadd;
      answered Hadd.
    + eexists. split; [reflexivity|]. apply (stage_stop workTree [] pattern rest err).
    + destruct (IH w1) as (o & Ho & Hpath). exists o. split; [exact Ho|].
      unfold after. cbn [trace]. inversion Hpath as [ps Htr Ho' | pre p post e Hps Htr Ho'].
      * apply (stage_all workTree (pattern :: rest)).
      * apply (stage_stop workTree (pattern :: pre) p post e).
Qed.

(** Every run of [commitChanges] follows one of its paths. *)
Lemma commitChanges_runs (ctx : Context) (gitRepo : GitRepository)
    (options : UpdateOptions) (w : W) :
  let r := run b (commitChanges ctx gitRepo options) w in
  commitChanges_path gitRepo options (trace r) (outcome r).
Proof.
  intros r. subst r. unfold commitChanges. to_calls.
  destruct (b (Repository_Worktree gitRepo) w) as [[workTree [err|]] w1] eqn:Hwt;
    answered Hwt; [constructor|].
  destruct workTree as [workTree|]; to_calls; [|constructor].
  destruct (b (Worktree_Status workTree) w1) as [[status [err|]] w2] eqn:Hst;
    answered Hst; [constructor|].
  destruct (IsClean status) eqn:Hclean; [by constructor|].
  rewrite run_bind.
  destruct (stagePatterns_runs workTree (StagePatterns (Git options)) w2)
    as (staged_err & Ho & Hpath).
  rewrite Ho. destruct staged_err as [err|].
  - finished. rewrite app_nil_r. by constructor.
  - inversion Hpath as [ps Htr Ho' |]. subst ps.
    set (w3 := final (run b (stagePatterns workTree (StagePatterns (Git options))) w2)).
    destruct (b time_Now w3) as [now w4] eqn:Hnow. cbv zeta. answered Hnow.
    destruct (b (Worktree_Commit workTree (commitMsg options) (commitOptions options now)) w4)
      as [[commit [err|]] w5] eqn:Hcommit; answered Hcommit; finished;
      by constructor.
Qed.

Lemma staged_not_created (workTree : Worktree) (patterns : list string) :
  ¬ Exists commit_created (staged workTree patterns).
Proof.
  induction patterns as [|p ps IH]; cbn [staged map]; rewrite ?Exists_nil, ?Exists_cons;
    [tauto | intros [[]|H]; auto].
Qed.

Lemma stage_path_not_created (workTree : Worktree) patterns stage o :
  stage_path workTree patterns stage o -> ¬ Exists commit_created stage.
Proof.
  intros [ps | pre p post err]; [apply staged_not_created|].
  rewrite Exists_app, Exists_cons, Exists_nil.
  intros [H | [[] | []]]. by apply staged_not_created in H.
Qed.

(** C1: on a repository whose working tree is clean, [commitChanges] returns
    [false] and no error; it asks for the worktree and its status and makes
    no other call, so nothing is staged and no commit is created. *)
Theorem commitChanges_clean_is_noop (ctx : Context) (gitRepo : GitRepository)
    (options : UpdateOptions) (w w1 w2 : W) (workTree : Worktree)
    (status : gmap string FileStatus) :
  b (Repository_Worktree gitRepo) w = ((Some workTree, None), w1) ->
  b (Worktree_Status workTree) w1 = ((status, None), w2) ->
  IsClean status = true ->
  let r := run b (commitChanges ctx gitRepo options) w in
  outcome r = Returned (false, None) ∧
  calls r = [Repository_Worktree gitRepo; Worktree_Status workTree] ∧
  Forall (fun a => is_stage a = false ∧ is_commit a = false ∧ writes a = false) (calls r) ∧
  final r = w2.
Proof.
  intros Hwt Hst Hclean r. subst r. unfold commitChanges. to_calls.
  answered Hwt. to_calls. answered Hst. rewrite Hclean. finished.
  repeat split; repeat constructor.
Qed.

(** C10: when [commitChanges] returns an error its boolean is [false]; the
    boolean is [true] exactly when a commit call of the run created a commit
    object, and then no error is returned. *)
Theorem commitChanges_true_iff_committed (ctx : Context) (gitRepo : GitRepository)
    (options : UpdateOptions) (w : W) :
  let r := run b (commitChanges ctx gitRepo options) w in
  match outcome r with
  | Returned (changed, err) =>
      (err ≠ None → changed = false) ∧
      (changed = true → err = None) ∧
      (changed = true ↔ Exists commit_created (trace r))
  | Panicked _ => Forall (fun e => ¬ commit_created e) (trace r)
  end.
Proof.
  intros r. subst r.
  destruct (commitChanges_runs ctx gitRepo options w)
    as [wt err | reason | wt st err | wt st Hc | wt st stage err Hc Hst
        | wt st now commit err Hc | wt st now commit Hc];
    try (apply stage_path_not_created in Hst);
    repeat split; try done;
    rewrite ?Forall_cons, ?Forall_nil, ?Exists_cons, ?Exists_app, ?Exists_cons, ?Exists_nil;
    try (pose proof (staged_not_created wt (StagePatterns (Git options))));
    cbn [commit_created event snd]; try tauto; intuition congruence.
Qed.

Lemma commitMsg_spec (options : UpdateOptions) :
  commitMsg options =
    spec_commit_message (CommitTitle (Git options)) (CommitBody (Git options))
                        (CommitFooter (Git options)).
Proof.
  unfold commitMsg, spec_commit_message, WriteString, Builder_String, new_Builder.
  rewrite !str_len_pos. cbn [String.app].
  destruct (decide (CommitBody (Git options) = "")) as [Hb|Hb];
    destruct (decide (CommitFooter (Git options) = "")) as [Hf|Hf];
    rewrite ?(bool_decide_eq_true_2 _ Hb), ?(bool_decide_eq_true_2 _ Hf),
      ?(bool_decide_eq_false_2 _ Hb), ?(bool_decide_eq_false_2 _ Hf);
    cbn [negb]; by rewrite ?str_app_assoc, ?str_app_nil_r.
Qed.

(** C2: the commit message is the title, then for a non-empty body two
    newlines and the body, then for a non-empty footer two newlines, the
    line [-- ], a newline and the footer, and nothing else; every commit
    call of [commitChanges] carries exactly this message.  Title [T], body
    [B], footer [F] give [T\n\nB\n\n-- \nF]; a title alone gives the title. *)
Theorem commit_message_is_concatenation (ctx : Context) (gitRepo : GitRepository)
    (options : UpdateOptions) (w : W) :
  let title := CommitTitle (Git options) in
  let body := CommitBody (Git options) in
  let footer := CommitFooter (Git options) in
  commitMsg options = spec_commit_message title body footer ∧
  Forall (commits_with (spec_commit_message title body footer))
         (calls (run b (commitChanges ctx gitRepo options) w)) ∧
  spec_commit_message "T" "B" "F"
    = "T" +:+ LF +:+ LF +:+ "B" +:+ LF +:+ LF +:+ "-- " +:+ LF +:+ "F" ∧
  (forall t, spec_commit_message t "" "" = t).
Proof.
  intros title body footer. subst title body footer.
  split; [apply commitMsg_spec|]. split; [|split; [reflexivity|]].
  - unfold calls.
    destruct (commitChanges_runs ctx gitRepo options w)
      as [wt err | reason | wt st err | wt st Hc | wt st stage err Hc Hst
          | wt st now commit err Hc | wt st now commit Hc];
      try (repeat constructor; fail).
    + destruct Hst as [ps | pre p post e]; cbn [map]; repeat constructor.
      * unfold staged. rewrite map_map. apply Forall_map, Forall_forall. by intros.
      * rewrite map_app. apply Forall_app. split; [|repeat constructor].
        unfold staged. rewrite map_map. apply Forall_map, Forall_forall. by intros.
    + cbn [map]. repeat constructor. rewrite map_app. apply Forall_app. split.
      * unfold staged. rewrite map_map. apply Forall_map, Forall_forall. by intros.
      * repeat constructor. apply commitMsg_spec.
    + cbn [map]. repeat constructor. rewrite map_app. apply Forall_app. split.
      * unfold staged. rewrite map_map. apply Forall_map, Forall_forall. by intros.
      * repeat constructor. apply commitMsg_spec.
  - intros t. unfold spec_commit_message. cbn. by rewrite !str_app_nil_r.
Qed.

(** C6, as amended: on a dirty working tree the patterns are handed to
    [AddGlob] in their configured order; the first staging failure ends the
    function with an error whose message names that pattern, before any
    commit; if no staging call fails, every pattern has been applied when
    the commit call is made. *)
Theorem commitChanges_stages_in_order (ctx : Context) (gitRepo : GitRepository)
    (options : UpdateOptions) (w w1 w2 : W) (workTree : Worktree)
    (status : gmap string FileStatus) :
  b (Repository_Worktree gitRepo) w = ((Some workTree, None), w1) ->
  b (Worktree_Status workTree) w1 = ((status, None), w2) ->
  IsClean status = false ->
  let r := run b (commitChanges ctx gitRepo options) w in
  let opened := [event (Repository_Worktree gitRepo) (Some workTree, None);
                 event (Worktree_Status workTree) (status, None)] in
  (exists pre pattern post err,
     StagePatterns (Git options) = pre ++ pattern :: post ∧
     trace r = opened ++ staged workTree pre
                 ++ [event (Worktree_AddGlob workTree pattern) (Some err)] ∧
     outcome r = Returned (false, Some (wrapError
       ("failed to stage files using pattern " +:+ pattern +:+ ": " +:+ Error err) err)))
  ∨
  (exists now answered,
     trace r = opened ++ staged workTree (StagePatterns (Git options))
                 ++ [event time_Now now;
                     event (Worktree_Commit workTree (commitMsg options)
                              (commitOptions options now)) answered]).
Proof.
  intros Hwt Hst Hdirty r opened. subst r opened. unfold commitChanges. to_calls.
  answered Hwt. to_calls. answered Hst. rewrite Hdirty, run_bind.
  destruct (stagePatterns_runs workTree (StagePatterns (Git options)) w2)
    as (staged_err & Ho & Hpath).
  rewrite Ho. destruct Hpath as [ps | pre pattern post err].
  - right.
    set (w3 := final (run b (stagePatterns workTree ps) w2)).
    destruct (b time_Now w3) as [now w4] eqn:Hnow. cbv zeta. answered Hnow.
    destruct (b (Worktree_Commit workTree (commitMsg options) (commitOptions options now)) w4)
      as [answered w5] eqn:Hcommit.
    exists now, answered. answered Hcommit.
    destruct answered as [commit [err|]]; finished; reflexivity.
  - left. exists pre, pattern, post, err. finished. rewrite app_nil_r.
    unfold Errorf_w. by rewrite !str_app_assoc.
Qed.

End CommitChanges.

(** ** switchBranch *)

Lemma described_Errorf_w (what : string) (cause : error) :
  described what (Errorf_w what cause).
Proof. by exists cause. Qed.

Section SwitchBranch.
Context {W : Type} (b : Backend W).

(** Every run of [switchBranch] follows one of its paths. *)
Lemma switchBranch_runs (ctx : Context) (gitRepo : GitRepository)
    (opts : switchBranchOptions) (w : W) :
  let r := run b (switchBranch ctx gitRepo opts) w in
  switchBranch_path gitRepo opts (trace r) (outcome r).
Proof.
  intros r. subst r. unfold switchBranch. to_calls.
  destruct (b (Repository_Worktree gitRepo) w) as [[workTree [err|]] w1] eqn:Hwt;
    answered Hwt; [constructor|].
  destruct workTree as [workTree|]; to_calls; [|constructor].
  destruct (CreateBranch opts) eqn:Hcreate; cbn [negb].
  - destruct (b (checkout_call workTree opts) w1) as [answered w2] eqn:Hco.
    unfold checkout_call, NewBranchReferenceName in *. rewrite Hcreate in Hco.
    answered Hco.
    pose proof (sb_checkout_created gitRepo opts workTree answered Hcreate) as P.
    unfold checkout_call in P. rewrite Hcreate in P.
    destruct answered; finished; exact P.
  - destruct (b (remote_reference_call gitRepo opts) w1)
      as [[remoteBranchRef [err|]] w2] eqn:Href;
      unfold remote_reference_call, NewRemoteReferenceName in *;
      rewrite <- ?str_app_assoc; cbn [String.app] in *.
    + answered Href. finished.
      by apply (sb_reference_error gitRepo opts workTree remoteBranchRef err).
    + answered Href. destruct remoteBranchRef as [remoteBranchRef|]; to_calls.
      2: { finished. by apply (sb_reference_nil gitRepo opts workTree). }
      destruct (b (Storer_SetReference gitRepo (pinned_reference opts remoteBranchRef)) w2)
        as [[err|] w3] eqn:Hset;
        unfold pinned_reference, NewHashReference, NewBranchReferenceName in *;
        answered Hset.
      * finished. by apply (sb_store_error gitRepo opts workTree remoteBranchRef err).
      * destruct (b (checkout_call workTree opts) w3) as [answered w4] eqn:Hco.
        unfold checkout_call in Hco. rewrite Hcreate in Hco. answered Hco.
        pose proof (sb_checkout_existing gitRepo opts workTree remoteBranchRef answered
                      Hcreate) as P.
        unfold checkout_call, remote_reference_call, pinned_reference in P.
        rewrite Hcreate in P. destruct answered; finished; exact P.
Qed.

(** C3: with [CreateBranch] false, when the lookup of the remote-tracking
    reference [origin/<branch>] fails, [switchBranch] fails with a
    BranchResolutionError that wraps the lookup's error; it has made the
    worktree and the reference lookup calls only: no reference is stored and
    no checkout is performed. *)
Theorem switchBranch_missing_remote_branch (ctx : Context) (gitRepo : GitRepository)
    (opts : switchBranchOptions) (w w1 w2 : W) (workTree : Worktree)
    (remoteBranchRef : option Reference) (err : error) :
  CreateBranch opts = false ->
  b (Repository_Worktree gitRepo) w = ((Some workTree, None), w1) ->
  b (Repository_Reference gitRepo ("refs/remotes/origin/" +:+ BranchName opts) true) w1
    = ((remoteBranchRef, Some err), w2) ->
  let r := run b (switchBranch ctx gitRepo opts) w in
  (exists e, outcome r = Returned (Some e) ∧ BranchResolutionError e ∧
             Unwrap e = Some err) ∧
  calls r = [Repository_Worktree gitRepo;
             Repository_Reference gitRepo ("refs/remotes/origin/" +:+ BranchName opts) true] ∧
  Forall (fun a => is_checkout a = false ∧ writes a = false) (calls r) ∧
  final r = w2.
Proof.
  intros Hcreate Hwt Href r. subst r. unfold switchBranch. to_calls.
  answered Hwt. to_calls. rewrite Hcreate. cbn [negb].
  unfold NewRemoteReferenceName. rewrite <- !str_app_assoc. cbn [String.app].
  answered Href. finished. split; [|repeat split; repeat constructor].
  eexists. split; [reflexivity|]. split; [|reflexivity].
  exists (fmt_s_Reference remoteBranchRef). apply described_Errorf_w.
Qed.

(** C7: with [CreateBranch] false, when the remote-tracking reference
    exists, the next call stores a local branch reference [refs/heads/<branch>]
    that is a hash reference to exactly the hash of the remote-tracking
    reference; the checkout call comes after it, only if storing succeeded,
    and it targets [refs/heads/<branch>] without creating it. *)
Theorem switchBranch_pins_local_branch (ctx : Context) (gitRepo : GitRepository)
    (opts : switchBranchOptions) (w w1 w2 w3 : W) (workTree : Worktree)
    (remoteBranchRef : Reference) (stored : option error) :
  CreateBranch opts = false ->
  b (Repository_Worktree gitRepo) w = ((Some workTree, None), w1) ->
  b (Repository_Reference gitRepo ("refs/remotes/origin/" +:+ BranchName opts) true) w1
    = ((Some remoteBranchRef, None), w2) ->
  b (Storer_SetReference gitRepo
       {| ref_t := HashReference;
          ref_n := "refs/heads/" +:+ BranchName opts;
          ref_h := ref_h remoteBranchRef;
          ref_target := "" |}) w2 = (stored, w3) ->
  let r := run b (switchBranch ctx gitRepo opts) w in
  calls r =
    [Repository_Worktree gitRepo;
     Repository_Reference gitRepo ("refs/remotes/origin/" +:+ BranchName opts) true;
     Storer_SetReference gitRepo
       {| ref_t := HashReference;
          ref_n := "refs/heads/" +:+ BranchName opts;
          ref_h := ref_h remoteBranchRef;
          ref_target := "" |}]
    ++ match stored with
       | None => [Worktree_Checkout workTree
                    {| checkout_Branch := "refs/heads/" +:+ BranchName opts;
                       checkout_Create := false |}]
       | Some _ => []
       end.
Proof.
  intros Hcreate Hwt Href Hset r. subst r. unfold switchBranch. to_calls.
  answered Hwt. to_calls. rewrite Hcreate. cbn [negb].
  unfold NewRemoteReferenceName. rewrite <- !str_app_assoc. cbn [String.app].
  answered Href. to_calls. unfold NewHashReference, NewBranchReferenceName.
  answered Hset. destruct stored as [err|]; [finished; reflexivity|].
  match goal with
  | |- context [run b (Do ?a _) w3] => destruct (b a w3) as [answered w4] eqn:Hco
  end.
  answered Hco. destruct answered; finished; reflexivity.
Qed.

End SwitchBranch.

(** ** cloneGitRepository and pushChanges *)

Section CloneAndPush.
Context {W : Type} (b : Backend W).

Lemma cloneGitRepository_runs (ctx : Context) (repo : Repository) (localPath : string)
    (options : GitHubOptions) (w : W) :
  let r := run b (cloneGitRepository ctx repo localPath options) w in
  clone_path ctx repo localPath options (trace r) (outcome r).
Proof.
  intros r. subst r. unfold cloneGitRepository. to_calls.
  destruct (b (githubClient ctx options) w) as [[[client token] [err|]] w1] eqn:Htok;
    answered Htok; [constructor|].
  destruct (b (clone_call ctx repo localPath token) w1) as [[gitRepo [err|]] w2] eqn:Hcl;
    unfold clone_call, basic_auth in Hcl; answered Hcl; finished.
  - apply (cl_clone_error ctx repo localPath options client token gitRepo err).
  - apply (cl_cloned ctx repo localPath options client token gitRepo).
Qed.

Lemma pushChanges_runs (ctx : Context) (gitRepo : GitRepository) (opts : pushOptions)
    (w : W) :
  let r := run b (pushChanges ctx gitRepo opts) w in
  push_path ctx gitRepo opts (trace r) (outcome r).
Proof.
  intros r. subst r. unfold pushChanges. to_calls.
  destruct (b (Repository_Worktree gitRepo) w) as [[workTree [err|]] w1] eqn:Hwt;
    answered Hwt; [constructor|].
  destruct workTree as [workTree|]; to_calls; [|constructor].
  destruct (b (githubClient ctx (GitHubOpts opts)) w1)
    as [[[client token] [err|]] w2] eqn:Htok; answered Htok; [constructor|].
  destruct (b (push_call gitRepo ctx opts token) w2) as [[err|] w3] eqn:Hpush;
    unfold push_call, basic_auth in Hpush; answered Hpush; finished.
  - apply (ps_push_error ctx gitRepo opts workTree client token err).
  - apply (ps_pushed ctx gitRepo opts workTree client token).
Qed.

(** C5: the refspec built by [pushChanges] maps [refs/heads/<branch>] to
    [refs/heads/<branch>]; it starts with the force marker [+] exactly when
    [ForcePush] is set; every push call carries this refspec and no other. *)
Theorem pushChanges_refspec (ctx : Context) (gitRepo : GitRepository)
    (opts : pushOptions) (w : W) :
  let branch := push_BranchName opts in
  refSpec opts = spec_refspec branch (ForcePush opts) ∧
  refSpec opts =
    (if ForcePush opts
     then "+refs/heads/" +:+ branch +:+ ":refs/heads/" +:+ branch
     else "refs/heads/" +:+ branch +:+ ":refs/heads/" +:+ branch) ∧
  String.prefix "+" (refSpec opts) = ForcePush opts ∧
  Forall (pushes_with [spec_refspec branch (ForcePush opts)])
         (calls (run b (pushChanges ctx gitRepo opts) w)).
Proof.
  intros branch. subst branch.
  assert (Hspec : refSpec opts = spec_refspec (push_BranchName opts) (ForcePush opts)).
  { unfold refSpec, spec_refspec. by destruct (ForcePush opts). }
  split; [exact Hspec|]. split; [|split].
  - unfold refSpec. by destruct (ForcePush opts).
  - unfold refSpec. by destruct (ForcePush opts).
  - rewrite <- Hspec. unfold calls.
    destruct (pushChanges_runs ctx gitRepo opts w); repeat constructor.
Qed.

(** C8: [cloneGitRepository] and [pushChanges] each ask the token provider
    themselves, before their network call, and authenticate that call with
    the token just answered; when the token provider fails in
    [pushChanges], the function returns the wrapped error without a push
    call and without any call that changes the repository, so the state is
    the one the token provider left. *)
Theorem token_fetched_by_each_operation (ctx : Context) (repo : Repository)
    (localPath : string) (options : GitHubOptions) (gitRepo : GitRepository)
    (opts : pushOptions) (w wc w' w1 wp : W) (workTree : Worktree)
    (client_c client_p : option GithubClient) (token_c token_p : string)
    (err_c err_p : option error) :
  b (githubClient ctx options) w = ((client_c, token_c, err_c), wc) ->
  b (Repository_Worktree gitRepo) w' = ((Some workTree, None), w1) ->
  b (githubClient ctx (GitHubOpts opts)) w1 = ((client_p, token_p, err_p), wp) ->
  let cloned := run b (cloneGitRepository ctx repo localPath options) w in
  let pushed := run b (pushChanges ctx gitRepo opts) w' in
  calls cloned =
    githubClient ctx options
    :: match err_c with
       | None => [git_PlainCloneContext ctx localPath false
                    {| clone_ReferenceName := cloneReference repo;
                       clone_URL := cloneURL repo;
                       clone_Auth := {| Username := "x-access-token";
                                        Password := token_c |} |}]
       | Some _ => []
       end ∧
  calls pushed =
    Repository_Worktree gitRepo :: githubClient ctx (GitHubOpts opts)
    :: match err_p with
       | None => [Repository_PushContext gitRepo ctx
                    {| push_RefSpecs := [refSpec opts];
                       push_Auth := {| Username := "x-access-token";
                                       Password := token_p |} |}]
       | Some _ => []
       end ∧
  match err_p with
  | Some err =>
      outcome pushed = Returned (Some (Errorf_w "failed to create github client: " err)) ∧
      Forall (fun a => is_push a = false ∧ writes a = false) (calls pushed) ∧
      final pushed = wp
  | None => True
  end.
Proof.
  intros Htc Hwt Htp cloned pushed. subst cloned pushed.
  unfold cloneGitRepository, pushChanges. to_calls.
  answered Htc. answered Hwt. to_calls. answered Htp.
  split; [|split].
  - destruct err_c; [finished; reflexivity|].
    match goal with
    | |- context [run b (Do ?a _) wc] => destruct (b a wc) as [[g e] w2] eqn:Hcl
    end.
    answered Hcl. destruct e; finished; reflexivity.
  - destruct err_p; [finished; reflexivity|].
    match goal with
    | |- context [run b (Do ?a _) wp] => destruct (b a wp) as [e w2] eqn:Hpush
    end.
    answered Hpush. destruct e; finished; reflexivity.
  - destruct err_p; [|done]. finished. repeat split; repeat constructor.
Qed.

End CloneAndPush.

(** ** The reference to clone *)

Lemma cloneReference_spec (repo : Repository) :
  cloneReference repo = spec_clone_reference (Params repo).
Proof.
  unfold cloneReference, spec_clone_reference.
  destruct (Params repo !! "branch") as [branch|]; [|done].
  destruct (blank branch) eqn:Hb.
  - apply TrimSpace_blank in Hb. by destruct (decide (TrimSpace branch ≠ "")).
  - destruct (decide (TrimSpace branch ≠ "")) as [|Hn]; [done|].
    apply dec_stable in Hn. apply TrimSpace_blank in Hn. congruence.
Qed.

Section CloneReference.
Context {W : Type} (b : Backend W).

(** C4: [cloneGitRepository] clones [refs/heads/<branch>] exactly when the
    parameters of the repository hold a [branch] entry whose value is not
    blank (not empty and not made of white space only); otherwise it clones
    [HEAD]; every clone call carries the reference so resolved. *)
Theorem clone_reference_resolution (ctx : Context) (repo : Repository)
    (localPath : string) (options : GitHubOptions) (w : W) :
  let reference := cloneReference repo in
  let param := Params repo !! "branch" in
  ((exists branch, param = Some branch ∧ blank branch = false ∧
                   reference = "refs/heads/" +:+ branch)
   ∨ ((param = None ∨ exists branch, param = Some branch ∧ blank branch = true) ∧
      reference = "HEAD")) ∧
  (forall branch, "refs/heads/" +:+ branch ≠ "HEAD") ∧
  blank "" = true ∧
  Forall (clones_reference reference)
         (calls (run b (cloneGitRepository ctx repo localPath options) w)).
Proof.
  intros reference param. subst reference param.
  split; [|split; [done|split; [done|]]].
  - rewrite cloneReference_spec. unfold spec_clone_reference.
    destruct (Params repo !! "branch") as [branch|]; [|right; auto].
    destruct (blank branch) eqn:Hb; [right | left]; eauto 6.
  - unfold calls.
    destruct (cloneGitRepository_runs b ctx repo localPath options w);
      repeat constructor.
Qed.

End CloneReference.

(** ** Errors are wrapped and never swallowed *)



Section Errors.
Context {W : Type} (b : Backend W).


End Errors.

(** ** Further properties of the operations *)

Section Further.
Context {W : Type} (b : Backend W).

(** X1: [cloneGitRepository] never panics and never returns a repository
    together with an error: on an error the handle is nil, also when the
    clone call answered a handle with its error; without an error the handle
    is the one the clone call answered, and no call reported an error. *)
Theorem cloneGitRepository_result (ctx : Context) (repo : Repository)
    (localPath : string) (options : GitHubOptions) (w : W) :
  let r := run b (cloneGitRepository ctx repo localPath options) w in
  exists gitRepo err,
    outcome r = Returned (gitRepo, err) ∧
    (err ≠ None → gitRepo = None) ∧
    (err = None →
       quiet (trace r) ∧
       exists client token,
         trace r = [event (githubClient ctx options) (client, token, None);
                    event (clone_call ctx repo localPath token) (gitRepo, None)]).
Proof.
  intros r. subst r.
  destruct (cloneGitRepository_runs b ctx repo localPath options w)
    as [client token err | client token g err | client token g].
  - eexists _, _. split; [reflexivity|]. split; [done|]. intros [=].
  - eexists _, _. split; [reflexivity|]. split; [done|]. intros [=].
  - exists g, None. split; [reflexivity|]. split; [done|]. intros _.
    split; [by repeat constructor | by exists client, token].
Qed.

(** X2: with [CreateBranch] set, [switchBranch] looks up and stores no
    reference: after the worktree call it makes the checkout call for
    [refs/heads/<branch>] with [Create] set, and returns what that call
    answered, wrapped if it is an error. *)
Theorem switchBranch_creates_on_checkout (ctx : Context) (gitRepo : GitRepository)
    (opts : switchBranchOptions) (w w1 w2 : W) (workTree : Worktree)
    (answered : option error) :
  CreateBranch opts = true ->
  b (Repository_Worktree gitRepo) w = ((Some workTree, None), w1) ->
  b (Worktree_Checkout workTree
       {| checkout_Branch := "refs/heads/" +:+ BranchName opts;
          checkout_Create := true |}) w1 = (answered, w2) ->
  let r := run b (switchBranch ctx gitRepo opts) w in
  calls r = [Repository_Worktree gitRepo;
             Worktree_Checkout workTree
               {| checkout_Branch := "refs/heads/" +:+ BranchName opts;
                  checkout_Create := true |}] ∧
  outcome r =
    Returned (match answered with
              | Some err => Some (wrapError
                  ("failed to checkout the branch " +:+ BranchName opts +:+ ": "
                     +:+ Error err) err)
              | None => None
              end) ∧
  final r = w2.
Proof.
  intros Hcreate Hwt Hco r. subst r. unfold switchBranch. to_calls.
  answered Hwt. to_calls. rewrite Hcreate. cbn [negb].
  unfold NewBranchReferenceName. answered Hco.
  destruct answered as [err|]; finished; repeat split.
  unfold Errorf_w. by rewrite !str_app_assoc.
Qed.

(** X3: [switchBranch] returns no error exactly when its checkout call
    succeeded; it makes at most one checkout call, and when the branch is
    not to be created that call comes only after the pinned reference was
    stored without error. *)
Theorem switchBranch_succeeds_iff_checked_out (ctx : Context) (gitRepo : GitRepository)
    (opts : switchBranchOptions) (w : W) :
  let r := run b (switchBranch ctx gitRepo opts) w in
  (outcome r = Returned None ↔ Exists checked_out (trace r)) ∧
  (List.length (List.filter is_checkout (calls r)) ≤ 1)%nat ∧
  (CreateBranch opts = false →
   forall workTree o answered,
     In (event (Worktree_Checkout workTree o) answered) (trace r) →
     exists ref, In (event (Storer_SetReference gitRepo ref) None) (trace r) ∧
                 ref_t ref = HashReference ∧
                 ref_n ref = "refs/heads/" +:+ BranchName opts).
Proof.
  intros r. subst r. unfold calls.
  assert (Hact : forall tr workTree o (answered : option error),
            In (event (Worktree_Checkout workTree o) answered) tr ->
            In (Worktree_Checkout workTree o) (map action_of tr)).
  { intros tr wt' o ans Hin. by apply (in_map action_of) in Hin. }
  destruct (switchBranch_runs b ctx gitRepo opts w)
    as [wt err | reason | wt ref err Hc | wt reason Hc | wt ref err Hc
        | wt ref answered Hc | wt answered Hc];
    unfold remote_reference_call, checkout_call;
    (split; [|split; [cbn; lia|]]).
  all: try (split; [intros [=] |
                    intros H; rewrite ?Exists_cons, ?Exists_nil in H;
                    cbn [checked_out event] in H; tauto]).
  all: try (intros _ workTree o ans Hin%Hact; cbn in Hin; intuition discriminate).
  - destruct answered as [e|]; cbn [checkout_result];
      rewrite ?Exists_cons, ?Exists_nil; cbn [checked_out event];
      split; try tauto; try (intros [=]); intuition discriminate.
  - intros _ workTree o ans _. exists (pinned_reference opts ref).
    split; [|done]. cbn [In]. auto.
  - destruct answered as [e|]; cbn [checkout_result];
      rewrite ?Exists_cons, ?Exists_nil; cbn [checked_out event];
      split; try tauto; try (intros [=]); intuition discriminate.
  - congruence.
Qed.

Lemma Forall_calls_staged (P : Action -> Prop) (workTree : Worktree)
    (patterns : list string) :
  (forall pattern, P (Worktree_AddGlob workTree pattern)) ->
  Forall P (map action_of (staged workTree patterns)).
Proof. intros HP. induction patterns; constructor; auto. apply HP. Qed.

Lemma Forall_calls_stage_path (P : Action -> Prop) (workTree : Worktree)
    patterns stage o :
  (forall pattern, P (Worktree_AddGlob workTree pattern)) ->
  stage_path workTree patterns stage o -> Forall P (map action_of stage).
Proof.
  intros HP [ps | pre p post err]; [by apply Forall_calls_staged|].
  rewrite map_app. apply Forall_app. split; [by apply Forall_calls_staged|].
  repeat constructor. apply HP.
Qed.

Lemma stage_path_never (P : Event -> Prop) (workTree : Worktree)
    patterns stage o :
  (forall pattern answered, ¬ P (event (Worktree_AddGlob workTree pattern) answered)) ->
  stage_path workTree patterns stage o -> ¬ Exists P stage.
Proof.
  intros HP Hpath.
  assert (Hs : forall ps, ¬ Exists P (staged workTree ps)).
  { induction ps as [|p ps IH]; cbn [staged map]; rewrite ?Exists_nil, ?Exists_cons;
      [tauto | intros [H|H]; [by eapply HP | auto]]. }
  destruct Hpath as [ps | pre p post err]; [apply Hs|].
  rewrite Exists_app, Exists_cons, Exists_nil.
  intros [H | [H | []]]; [by eapply Hs | by eapply HP].
Qed.


(** X5: the only way an operation panics is a call that answers a nil
    pointer with a nil error (the worktree, or the remote-tracking
    reference): [switchBranch], [commitChanges] and [pushChanges] panic
    exactly then, having changed nothing, and [cloneGitRepository] never
    panics. *)
Theorem panics_only_on_nil_answers (ctx : Context) (repo : Repository)
    (localPath : string) (options : GitHubOptions) (gitRepo : GitRepository)
    (branch : switchBranchOptions) (update : UpdateOptions) (push : pushOptions)
    (w : W) :
  let panicked {A} (r : Run W A) := exists reason, outcome r = Panicked reason in
  let switched := run b (switchBranch ctx gitRepo branch) w in
  let committed := run b (commitChanges ctx gitRepo update) w in
  let pushed := run b (pushChanges ctx gitRepo push) w in
  (panicked switched ↔ Exists nil_without_error (trace switched)) ∧
  (panicked committed ↔ Exists nil_without_error (trace committed)) ∧
  (panicked pushed ↔ Exists nil_without_error (trace pushed)) ∧
  (panicked switched → Forall (fun a => writes a = false) (calls switched)) ∧
  ¬ panicked (run b (cloneGitRepository ctx repo localPath options) w).
Proof.
  intros panicked switched committed pushed.
  subst panicked switched committed pushed. unfold calls. cbv beta.
  split; [|split; [|split; [|split]]].
  - destruct (switchBranch_runs b ctx gitRepo branch w);
      unfold remote_reference_call, checkout_call;
      rewrite ?Exists_cons, ?Exists_nil; cbn [nil_without_error event];
      (split; [intros [? [=]] | intros Hnil]); eauto;
      intuition (try discriminate; eauto).
  - destruct (commitChanges_runs b ctx gitRepo update w)
      as [wt err | reason | wt st err | wt st Hc | wt st stage err Hc Hst
          | wt st now commit err Hc | wt st now commit Hc];
      rewrite ?Exists_cons, ?Exists_app, ?Exists_cons, ?Exists_nil;
      cbn [nil_without_error event];
      (split; [intros [? [=]] | intros Hnil]); eauto;
      try (intuition (try discriminate; eauto); fail).
    + exfalso. destruct Hnil as [H|[H|H]]; try done.
      exact (stage_path_never nil_without_error wt _ _ _ (fun _ _ F => F) Hst H).
    + exfalso. destruct Hnil as [H|[H|[H|H]]]; try done; [|intuition discriminate].
      exact (stage_path_never nil_without_error wt _ _ _ (fun _ _ F => F)
               (stage_all wt _) H).
    + exfalso. destruct Hnil as [H|[H|[H|H]]]; try done; [|intuition discriminate].
      exact (stage_path_never nil_without_error wt _ _ _ (fun _ _ F => F)
               (stage_all wt _) H).
  - destruct (pushChanges_runs b ctx gitRepo push w);
      unfold push_call;
      rewrite ?Exists_cons, ?Exists_nil; cbn [nil_without_error event];
      (split; [intros [? [=]] | intros Hnil]); eauto;
      intuition (try discriminate; eauto).
  - destruct (switchBranch_runs b ctx gitRepo branch w);
      intros [? [=]]; by repeat constructor.
  - destruct (cloneGitRepository_runs b ctx repo localPath options w);
      by intros [? [=]].
Qed.

(** X6: when the repository has no worktree to give, [switchBranch],
    [commitChanges] and [pushChanges] stop at that first call: each returns
    the worktree error wrapped ([commitChanges] with [false]) and makes no
    other call, so [pushChanges] does not ask for a token. *)
Theorem worktree_error_stops_operations (ctx : Context) (gitRepo : GitRepository)
    (branch : switchBranchOptions) (update : UpdateOptions) (push : pushOptions)
    (w w1 : W) (workTree : option Worktree) (err : error) :
  b (Repository_Worktree gitRepo) w = ((workTree, Some err), w1) ->
  let failed := wrapError ("failed to open worktree: " +:+ Error err) err in
  let switched := run b (switchBranch ctx gitRepo branch) w in
  let committed := run b (commitChanges ctx gitRepo update) w in
  let pushed := run b (pushChanges ctx gitRepo push) w in
  outcome switched = Returned (Some failed) ∧
  outcome committed = Returned (false, Some failed) ∧
  outcome pushed = Returned (Some failed) ∧
  calls switched = [Repository_Worktree gitRepo] ∧
  calls committed = [Repository_Worktree gitRepo] ∧
  calls pushed = [Repository_Worktree gitRepo] ∧
  final switched = w1 ∧ final committed = w1 ∧ final pushed = w1.
Proof.
  intros Hwt failed switched committed pushed.
  subst failed switched committed pushed.
  unfold switchBranch, commitChanges, pushChanges. to_calls.
  do 3 answered Hwt. finished. repeat split.
Qed.

Lemma In_stage_path (workTree : Worktree) patterns stage o (e : Event) :
  stage_path workTree patterns stage o -> In e stage -> is_stage (action_of e) = true.
Proof.
  intros Hpath Hin.
  pose proof (Forall_calls_stage_path (fun a => is_stage a = true) workTree
                patterns stage o (fun _ => eq_refl) Hpath) as Hall.
  apply (proj1 (List.Forall_forall _ _) Hall). by apply in_map.
Qed.

Lemma filter_calls_stage_path (f : Action -> bool) (workTree : Worktree)
    patterns stage o :
  (forall pattern, f (Worktree_AddGlob workTree pattern) = false) ->
  stage_path workTree patterns stage o ->
  List.filter f (map action_of stage) = [].
Proof.
  intros Hf Hpath.
  pose proof (Forall_calls_stage_path (fun a => f a = false) workTree
                patterns stage o Hf Hpath) as Hall.
  induction Hall as [|a l Ha _ IH]; [done|]. cbn [List.filter]. by rewrite Ha.
Qed.

(** X7: a commit is stamped once.  Every commit call of [commitChanges]
    carries the same instant in the author and the committer signature, the
    configured names and e-mail addresses, and [All] as configured; the
    clock is read only to commit: a reading is followed at once by the
    commit call that carries it, which ends the run. *)
Theorem commit_is_stamped_once (ctx : Context) (gitRepo : GitRepository)
    (options : UpdateOptions) (w : W) :
  let r := run b (commitChanges ctx gitRepo options) w in
  Forall (commit_signed_as options) (calls r) ∧
  (List.length (List.filter is_commit (calls r)) ≤ 1)%nat ∧
  List.length (List.filter is_clock (calls r))
    = List.length (List.filter is_commit (calls r)) ∧
  (forall now, In (event time_Now now) (trace r) →
     exists earlier workTree answered,
       trace r = earlier
                 ++ [event time_Now now;
                     event (Worktree_Commit workTree (commitMsg options)
                              (commitOptions options now)) answered]).
Proof.
  intros r. subst r. unfold calls.
  destruct (commitChanges_runs b ctx gitRepo options w)
    as [wt err | reason | wt st err | wt st Hc | wt st stage err Hc Hst
        | wt st now commit err Hc | wt st now commit Hc].
  1-4: (split; [by repeat constructor|]); (split; [cbn; lia|]); (split; [done|]);
       intros now' Hin; cbn [In] in Hin;
       repeat (destruct Hin as [Hin|Hin]; [by apply eq_sigT_fst in Hin|]); done.
  - split; [|split; [|split]].
    + cbn [map]. repeat (apply Forall_cons; split; [done|]).
      by eapply Forall_calls_stage_path; [|exact Hst].
    + cbn [map List.filter is_commit action_of event projT1].
      rewrite (filter_calls_stage_path is_commit wt _ _ _ (fun _ => eq_refl) Hst).
      cbn; lia.
    + cbn [map List.filter is_commit is_clock action_of event projT1].
      by rewrite !(filter_calls_stage_path _ wt _ _ _ (fun _ => eq_refl) Hst).
    + intros now' Hin. cbn [In] in Hin.
      repeat (destruct Hin as [Hin|Hin]; [by apply eq_sigT_fst in Hin|]).
      by apply (In_stage_path _ _ _ _ _ Hst) in Hin.
  - split; [|split; [|split]].
    + cbn [map]. repeat (apply Forall_cons; split; [done|]).
      rewrite map_app. apply Forall_app. split; [by apply Forall_calls_staged|].
      by repeat constructor.
    + cbn [map List.filter is_commit action_of event projT1].
      rewrite map_app, List.filter_app.
      rewrite (filter_calls_stage_path is_commit wt _ _ _ (fun _ => eq_refl)
                 (stage_all wt _)).
      cbn; lia.
    + cbn [map List.filter is_commit is_clock action_of event projT1].
      rewrite map_app, !List.filter_app.
      by rewrite !(filter_calls_stage_path _ wt _ _ _ (fun _ => eq_refl)
                     (stage_all wt _)).
    + intros now' Hin. cbn [In] in Hin.
      repeat (destruct Hin as [Hin|Hin]; [by apply eq_sigT_fst in Hin|]).
      apply in_app_or in Hin as [Hin|Hin].
      { by apply (In_stage_path _ _ _ _ _ (stage_all wt _)) in Hin. }
      cbn [In] in Hin. destruct Hin as [Hin|[Hin|[]]];
        [|by apply eq_sigT_fst in Hin].
      assert (now' = now) as ->.
      { apply (f_equal clock_reading) in Hin. by injection Hin. }
      eexists (_ :: _ :: staged wt _), wt, _. reflexivity.
  - split; [|split; [|split]].
    + cbn [map]. repeat (apply Forall_cons; split; [done|]).
      rewrite map_app. apply Forall_app. split; [by apply Forall_calls_staged|].
      by repeat constructor.
    + cbn [map List.filter is_commit action_of event projT1].
      rewrite map_app, List.filter_app.
      rewrite (filter_calls_stage_path is_commit wt _ _ _ (fun _ => eq_refl)
                 (stage_all wt _)).
      cbn; lia.
    + cbn [map List.filter is_commit is_clock action_of event projT1].
      rewrite map_app, !List.filter_app.
      by rewrite !(filter_calls_stage_path _ wt _ _ _ (fun _ => eq_refl)
                     (stage_all wt _)).
    + intros now' Hin. cbn [In] in Hin.
      repeat (destruct Hin as [Hin|Hin]; [by apply eq_sigT_fst in Hin|]).
      apply in_app_or in Hin as [Hin|Hin].
      { by apply (In_stage_path _ _ _ _ _ (stage_all wt _)) in Hin. }
      cbn [In] in Hin. destruct Hin as [Hin|[Hin|[]]];
        [|by apply eq_sigT_fst in Hin].
      assert (now' = now) as ->.
      { apply (f_equal clock_reading) in Hin. by injection Hin. }
      eexists (_ :: _ :: staged wt _), wt, _. reflexivity.
Qed.

Lemma until_commit_app (l1 l2 : list Event) :
  Forall (fun a => is_commit a = false) (map action_of l1) ->
  until_commit (l1 ++ l2) = l1 ++ until_commit l2.
Proof.
  induction l1 as [|e l1 IH]; [done|]. cbn [map app until_commit].
  intros [He Hl]%Forall_cons. rewrite He. by rewrite IH.
Qed.

(** X8: the switch [StageAllChanged] changes nothing before the commit call.
    From the same state, [commitChanges] makes the same calls with the same
    answers up to the commit call whatever the switch is, so the configured
    patterns are staged in both cases; the switch only sets [All] in the
    commit call, whose message is unchanged. *)
Theorem stage_all_switch_only_sets_All (ctx : Context) (gitRepo : GitRepository)
    (options : UpdateOptions) (flag : bool) (w : W) :
  let r := run b (commitChanges ctx gitRepo options) w in
  let r' := run b (commitChanges ctx gitRepo (with_StageAllChanged flag options)) w in
  until_commit (trace r') = until_commit (trace r) ∧
  Forall (fun a => match a with
                   | Worktree_Commit _ msg o =>
                       commit_All o = flag ∧ msg = commitMsg options
                   | _ => True
                   end) (calls r').
Proof.
  intros r r'. subst r r'. unfold calls, commitChanges. to_calls.
  destruct (b (Repository_Worktree gitRepo) w) as [[workTree [err|]] w1] eqn:Hwt;
    do 2 answered Hwt; [finished; by repeat constructor|].
  destruct workTree as [workTree|]; to_calls; [|finished; by repeat constructor].
  destruct (b (Worktree_Status workTree) w1) as [[status [err|]] w2] eqn:Hst;
    do 2 answered Hst; [finished; by repeat constructor|].
  destruct (IsClean status) eqn:Hclean; [finished; by repeat constructor|].
  cbn [with_StageAllChanged Git StagePatterns]. rewrite !run_bind.
  destruct (stagePatterns_runs b workTree (StagePatterns (Git options)) w2)
    as (staged_err & Ho & Hpath).
  rewrite Ho.
  assert (Hnc : Forall (fun a => is_commit a = false)
                  (map action_of (trace (run b (stagePatterns workTree
                     (StagePatterns (Git options))) w2))))
    by (by eapply Forall_calls_stage_path; [|exact Hpath]).
  destruct staged_err as [err|].
  - finished. rewrite app_nil_r. split; [done|].
    repeat (apply Forall_cons; split; [done|]).
    eapply Forall_impl; [exact Hnc|]. by intros [].
  - set (w3 := final (run b (stagePatterns workTree (StagePatterns (Git options))) w2)).
    destruct (b time_Now w3) as [now w4] eqn:Hnow. cbv zeta.
    change (commitMsg (with_StageAllChanged flag options)) with (commitMsg options).
    destruct (b (Worktree_Commit workTree (commitMsg options)
                   (commitOptions options now)) w4) as [[c1 e1] w5] eqn:Hc1.
    destruct (b (Worktree_Commit workTree (commitMsg options)
                   (commitOptions (with_StageAllChanged flag options) now)) w4)
      as [[c2 e2] w6] eqn:Hc2.
    answered Hnow. answered Hc2. answered Hnow. answered Hc1.
    destruct e1, e2; finished; rewrite ?app_nil_r;
      (split;
       [cbn [until_commit action_of event projT1 is_commit];
        by rewrite !until_commit_app by exact Hnc
       |repeat (apply Forall_cons; split; [done|]);
        rewrite map_app; apply Forall_app; split;
        [eapply Forall_impl; [exact Hnc|]; by intros [] | by repeat constructor]]).
Qed.

(** X9: [commitChanges] reports a change only after the whole sequence ran:
    the status was not clean, every configured pattern was staged without
    error, in order, and the commit call answered without error. *)
Theorem commitChanges_true_after_full_sequence (ctx : Context)
    (gitRepo : GitRepository) (options : UpdateOptions) (w : W) :
  let r := run b (commitChanges ctx gitRepo options) w in
  match outcome r with
  | Returned (true, _) =>
      exists workTree status now commit,
        IsClean status = false ∧
        trace r =
          [event (Repository_Worktree gitRepo) (Some workTree, None);
           event (Worktree_Status workTree) (status, None)]
          ++ staged workTree (StagePatterns (Git options))
          ++ [event time_Now now;
              event (Worktree_Commit workTree (commitMsg options)
                       (commitOptions options now)) (commit, None)]
  | _ => True
  end.
Proof.
  intros r. subst r.
  destruct (commitChanges_runs b ctx gitRepo options w)
    as [wt err | reason | wt st err | wt st Hc | wt st stage err Hc Hst
        | wt st now commit err Hc | wt st now commit Hc]; try done.
  by exists wt, st, now, commit.
Qed.

(** X10: [pushChanges] returns no error exactly when its push call
    succeeded; it asks for at most one token and pushes at most once, to the
    repository and with the context it was given, as user [x-access-token]. *)
Theorem pushChanges_succeeds_iff_pushed (ctx : Context) (gitRepo : GitRepository)
    (opts : pushOptions) (w : W) :
  let r := run b (pushChanges ctx gitRepo opts) w in
  (outcome r = Returned None ↔ Exists pushed_ok (trace r)) ∧
  (List.length (List.filter is_push (calls r)) ≤ 1)%nat ∧
  (List.length (List.filter is_token (calls r)) ≤ 1)%nat ∧
  Forall (fun a => match a with
                   | Repository_PushContext g c o =>
                       g = gitRepo ∧ c = ctx ∧
                       Username (push_Auth o) = "x-access-token"
                   | _ => True
                   end) (calls r).
Proof.
  intros r. subst r. unfold calls.
  destruct (pushChanges_runs b ctx gitRepo opts w);
    unfold push_call;
    (split; [|split; [cbn; lia|split; [cbn; lia|by repeat constructor]]]);
    rewrite ?Exists_cons, ?Exists_nil; cbn [pushed_ok event];
    (split; [try (intros [=]) | intros Hp]); try tauto; intuition discriminate.
Qed.

End Further.

(** ** The values the operations build *)

Lemma list_ascii_of_string_app (s t : string) :
  list_ascii_of_string (s +:+ t) = list_ascii_of_string s ++ list_ascii_of_string t.
Proof.
  induction s as [|c s IH]; [done|]. rewrite str_app_cons. cbn. by rewrite IH.
Qed.

Lemma strip_separators_keeps (c : ascii) (rs : bytes) :
  IsPathSeparator c = false -> strip_separators (c :: rs) = c :: rs.
Proof. intros H. cbn. by rewrite H. Qed.

Lemma last_element_stops (name rest : bytes) :
  forallb (fun c => negb (IsPathSeparator c)) name = true ->
  last_element (name ++ "/"%char :: rest) = name.
Proof.
  induction name as [|c name IH]; cbn [app last_element forallb].
  - done.
  - intros [Hc Hn]%andb_prop. apply negb_true_iff in Hc. rewrite Hc.
    by rewrite IH.
Qed.

(** [filepath.Base] of a path that ends in a separator and a name is the
    name. *)
Lemma filepath_Base_last (dir name : string) :
  name ≠ "" -> no_separator name = true ->
  filepath_Base (dir +:+ "/" +:+ name) = name.
Proof.
  intros Hne Hsep. unfold filepath_Base, no_separator in *.
  destruct (decide (dir +:+ "/" +:+ name = "")) as [Hnil|_].
  { apply (f_equal String.length) in Hnil.
    destruct dir; cbn in Hnil; discriminate. }
  rewrite !list_ascii_of_string_app, !rev_app_distr, <- app_assoc.
  change (rev (list_ascii_of_string "/")) with ["/"%char]. cbn [app].
  set (l := list_ascii_of_string name) in *.
  assert (Hl : l ≠ []).
  { intros Hl. apply Hne. by rewrite <- (string_of_list_ascii_of_string name);
      fold l; rewrite Hl. }
  assert (Hrev : forallb (fun c => negb (IsPathSeparator c)) (rev l) = true).
  { apply forallb_forall. intros c Hc%in_rev.
    by apply (proj1 (forallb_forall _ _) Hsep). }
  destruct (rev l) as [|c rl] eqn:Hrl.
  { exfalso. apply Hl. by rewrite <- (rev_involutive l), Hrl. }
  cbn [app]. rewrite strip_separators_keeps.
  2: { cbn [forallb] in Hrev. apply andb_prop in Hrev as [Hc _].
       by apply negb_true_iff. }
  change (c :: rl ++ "/"%char :: rev (list_ascii_of_string dir))
    with ((c :: rl) ++ "/"%char :: rev (list_ascii_of_string dir)).
  rewrite last_element_stops by exact Hrev.
  rewrite <- Hrl, rev_involutive.
  destruct (decide (l = [])); [done|]. apply string_of_list_ascii_of_string.
Qed.

Lemma str_length_app (a c : string) :
  String.length (a +:+ c) = (String.length a + String.length c)%nat.
Proof.
  induction a as [|x a IH]; [done|]. rewrite str_app_cons. cbn. by rewrite IH.
Qed.

Lemma str_app_same_length (a1 a2 c1 c2 : string) :
  a1 +:+ c1 = a2 +:+ c2 -> String.length a1 = String.length a2 -> a1 = a2.
Proof.
  revert a2. induction a1 as [|x a1 IH]; intros [|y a2]; try done.
  rewrite !str_app_cons. intros [= -> H] [= Hlen]. f_equal. by apply IH.
Qed.

(** X11: the commit message always starts with the title; it is the title
    alone exactly when both body and footer are empty; its length is
    that of the title, plus two and the body for a non-empty body, plus six
    and the footer for a non-empty footer. *)
Theorem commitMsg_title_and_length (options : UpdateOptions) :
  let title := CommitTitle (Git options) in
  let body := CommitBody (Git options) in
  let footer := CommitFooter (Git options) in
  (exists rest, commitMsg options = title +:+ rest) ∧
  (commitMsg options = title ↔ body = "" ∧ footer = "") ∧
  String.length (commitMsg options)
    = (String.length title
       + (if decide (body = "") then 0 else 2 + String.length body)
       + (if decide (footer = "") then 0 else 6 + String.length footer))%nat.
Proof.
  intros title body footer. subst title body footer.
  assert (Hlen : String.length (commitMsg options)
    = (String.length (CommitTitle (Git options))
       + (if decide (CommitBody (Git options) = "") then 0
          else 2 + String.length (CommitBody (Git options)))
       + (if decide (CommitFooter (Git options) = "") then 0
          else 6 + String.length (CommitFooter (Git options))))%nat).
  { rewrite commitMsg_spec. unfold spec_commit_message.
    rewrite !str_length_app.
    destruct (decide (CommitBody (Git options) = ""));
      destruct (decide (CommitFooter (Git options) = ""));
      rewrite ?str_length_app; unfold LF; cbn [String.length]; lia. }
  split; [|split; [|exact Hlen]].
  - rewrite commitMsg_spec. unfold spec_commit_message. eauto.
  - split.
    + intros Heq. rewrite Heq in Hlen.
      destruct (decide (CommitBody (Git options) = ""));
        destruct (decide (CommitFooter (Git options) = "")); try done; lia.
    + intros [Hb Hf]. rewrite commitMsg_spec. unfold spec_commit_message.
      rewrite Hb, Hf. cbn. by rewrite !str_app_nil_r.
Qed.

(** X12: a refspec tells the branch and the force switch apart: two push
    options that give the same refspec have the same branch name and the
    same [ForcePush]. *)
Theorem refSpec_determines_branch_and_force (o1 o2 : pushOptions) :
  refSpec o1 = refSpec o2 ->
  push_BranchName o1 = push_BranchName o2 ∧ ForcePush o1 = ForcePush o2.
Proof.
  unfold refSpec.
  assert (Hbranch : forall b1 b2 : string,
            "refs/heads/" +:+ b1 +:+ ":refs/heads/" +:+ b1
            = "refs/heads/" +:+ b2 +:+ ":refs/heads/" +:+ b2 -> b1 = b2).
  { intros b1 b2 H. apply (inj (String.app "refs/heads/")) in H.
    apply (str_app_same_length _ _ _ _ H).
    apply (f_equal String.length) in H. rewrite !str_length_app in H.
    cbn [String.length] in H. lia. }
  destruct (ForcePush o1), (ForcePush o2); intros H.
  - split; [|done]. apply Hbranch. by apply (inj (String.app "+")) in H.
  - discriminate H.
  - discriminate H.
  - split; [|done]. by apply Hbranch.
Qed.

Section PushMessage.
Context {W : Type} (b : Backend W).

(** X13: a rejected push names the branch and the directory of the clone.
    When the worktree is rooted at [<dir>/<name>], with [name] not empty and
    free of separators, and the push call fails, [pushChanges] returns an
    error that wraps the push error and reads
    [failed to push branch <branch> to <name>: <cause>]. *)
Theorem push_failure_names_branch_and_directory (ctx : Context)
    (gitRepo : GitRepository) (opts : pushOptions) (w w1 w2 w3 : W)
    (workTree : Worktree) (dir name : string) (client : option GithubClient)
    (token : string) (err : error) :
  Filesystem_Root workTree = dir +:+ "/" +:+ name ->
  name ≠ "" ->
  no_separator name = true ->
  b (Repository_Worktree gitRepo) w = ((Some workTree, None), w1) ->
  b (githubClient ctx (GitHubOpts opts)) w1 = ((client, token, None), w2) ->
  b (Repository_PushContext gitRepo ctx
       {| push_RefSpecs := [refSpec opts];
          push_Auth := {| Username := "x-access-token"; Password := token |} |}) w2
    = (Some err, w3) ->
  let r := run b (pushChanges ctx gitRepo opts) w in
  exists e,
    outcome r = Returned (Some e) ∧
    Error e = "failed to push branch " +:+ push_BranchName opts +:+ " to "
                +:+ name +:+ ": " +:+ Error err ∧
    Unwrap e = Some err.
Proof.
  intros Hroot Hne Hsep Hwt Htok Hpush r. subst r. unfold pushChanges. to_calls.
  answered Hwt. to_calls. answered Htok. answered Hpush. finished.
  eexists. split; [reflexivity|]. split; [|reflexivity].
  cbn [Error Errorf_w]. rewrite Hroot, filepath_Base_last by done.
  by rewrite !str_app_assoc.
Qed.

End PushMessage.

(** ** The order of the calls *)


Section CallOrder.
Context {W : Type} (b : Backend W).


End CallOrder.

(** ** The operations on the sample repositories *)

Module Runs.
Import Mem Samples.

(** On the clean clone [commitChanges] is a no-op. *)
Lemma commitChanges_clean_is_noop_witness :
  let r := run backend (commitChanges ctx0 repo1 (git_options ["*.md"])) clean_store in
  IsClean (st_status clean_store) = true ∧
  outcome r = Returned (false, None) ∧
  calls r = [Repository_Worktree repo1; Worktree_Status wt1] ∧
  Forall (fun a => is_stage a = false ∧ is_commit a = false ∧ writes a = false) (calls r) ∧
  final r = clean_store.
Proof.
  split; [vm_compute; reflexivity|].
  apply (commitChanges_clean_is_noop backend ctx0 repo1 (git_options ["*.md"])
           clean_store clean_store clean_store wt1 (st_status clean_store));
    [reflexivity | reflexivity | vm_compute; reflexivity].
Defined.

(** There is no [origin/feature]: switching to [feature] without creating
    it fails and leaves the clone as it was. *)
Lemma switchBranch_missing_remote_branch_witness :
  let opts := mkSwitchBranchOptions "feature" false in
  let r := run backend (switchBranch ctx0 repo1 opts) clean_store in
  st_refs clean_store !! "refs/remotes/origin/feature" = None ∧
  (exists e, outcome r = Returned (Some e) ∧ BranchResolutionError e ∧
             Unwrap e = Some ErrReferenceNotFound) ∧
  calls r = [Repository_Worktree repo1;
             Repository_Reference repo1 "refs/remotes/origin/feature" true] ∧
  Forall (fun a => is_checkout a = false ∧ writes a = false) (calls r) ∧
  final r = clean_store.
Proof.
  split; [vm_compute; reflexivity|].
  apply (switchBranch_missing_remote_branch backend ctx0 repo1
           (mkSwitchBranchOptions "feature" false) clean_store clean_store clean_store
           wt1 None ErrReferenceNotFound);
    [reflexivity | reflexivity | vm_compute; reflexivity].
Defined.

(** [origin/release] is at [hash_b]: switching to [release] stores
    [refs/heads/release] at [hash_b], then checks it out. *)
Lemma switchBranch_pins_local_branch_witness :
  let opts := mkSwitchBranchOptions "release" false in
  let r := run backend (switchBranch ctx0 repo1 opts) clean_store in
  calls r =
    [Repository_Worktree repo1;
     Repository_Reference repo1 "refs/remotes/origin/release" true;
     Storer_SetReference repo1 (NewHashReference "refs/heads/release" hash_b);
     Worktree_Checkout wt1 (mkCheckoutOptions "refs/heads/release" false)].
Proof.
  apply (switchBranch_pins_local_branch backend ctx0 repo1
           (mkSwitchBranchOptions "release" false) clean_store clean_store clean_store
           (set_refs (insert "refs/heads/release"
                        (NewHashReference "refs/heads/release" hash_b)) clean_store)
           wt1 (NewHashReference "refs/remotes/origin/release" hash_b) None);
    [reflexivity | reflexivity | vm_compute; reflexivity | reflexivity].
Defined.

(** On the dirty clone both patterns are staged, in order, and the commit
    call follows. *)
Lemma commitChanges_stages_in_order_witness :
  let options := git_options ["*.go"; "*.txt"] in
  let r := run backend (commitChanges ctx0 repo1 options) dirty_store in
  let opened := [event (Repository_Worktree repo1) (Some wt1, None);
                 event (Worktree_Status wt1) (st_status dirty_store, None)] in
  IsClean (st_status dirty_store) = false ∧
  ((exists pre pattern post err,
      ["*.go"; "*.txt"] = pre ++ pattern :: post ∧
      trace r = opened ++ staged wt1 pre
                  ++ [event (Worktree_AddGlob wt1 pattern) (Some err)] ∧
      outcome r = Returned (false, Some (wrapError
        ("failed to stage files using pattern " +:+ pattern +:+ ": " +:+ Error err) err)))
   ∨
   (exists now answered,
      trace r = opened ++ staged wt1 ["*.go"; "*.txt"]
                  ++ [event time_Now now;
                      event (Worktree_Commit wt1 (commitMsg options)
                               (commitOptions options now)) answered])).
Proof.
  split; [vm_compute; reflexivity|].
  apply (commitChanges_stages_in_order backend ctx0 repo1 (git_options ["*.go"; "*.txt"])
           dirty_store dirty_store dirty_store wt1 (st_status dirty_store));
    [reflexivity | reflexivity | vm_compute; reflexivity].
Defined.

(** The token provider answers the clone with [token-1] and fails for the
    push: the clone is authenticated with [token-1], the push is not
    attempted, and the commit made in between is still there. *)
Lemma token_fetched_by_each_operation_witness :
  let opts := mkPushOpts auth0 "main" false in
  let cloned := run backend (cloneGitRepository ctx0 my_repo "/tmp/octopilot/my-repo" auth0)
                    clean_store in
  let pushed := run backend (pushChanges ctx0 repo1 opts)
                    (set_tokens [inl (errors_New "401 Bad credentials")] committed_store) in
  (calls cloned =
     [githubClient ctx0 auth0;
      git_PlainCloneContext ctx0 "/tmp/octopilot/my-repo" false
        (mkCloneOptions "refs/heads/release" "https://github.worldpay.com/acme/my-repo.git"
           (mkBasicAuth "x-access-token" "token-1"))] ∧
   calls pushed = [Repository_Worktree repo1; githubClient ctx0 auth0] ∧
   outcome pushed = Returned (Some (Errorf_w "failed to create github client: "
                                      (errors_New "401 Bad credentials"))) ∧
   Forall (fun a => is_push a = false ∧ writes a = false) (calls pushed) ∧
   final pushed = set_tokens [] committed_store) ∧
  List.length (st_commits (final pushed)) = 1.
Proof.
  split; [|vm_compute; reflexivity].
  apply (token_fetched_by_each_operation backend ctx0 my_repo "/tmp/octopilot/my-repo"
           auth0 repo1 (mkPushOpts auth0 "main" false)
           clean_store (set_tokens [inr "token-2"] clean_store)
           (set_tokens [inl (errors_New "401 Bad credentials")] committed_store)
           (set_tokens [inl (errors_New "401 Bad credentials")] committed_store)
           (set_tokens [] committed_store)
           wt1 (Some (ClientPtr 1)) None "token-1" ""
           None (Some (errors_New "401 Bad credentials")));
    vm_compute; reflexivity.
Defined.

(** A pattern that matches no file: go-git's [AddGlob] answers
    [ErrGlobNoMatches], and [commitChanges] fails with a staging error for
    that pattern instead of going on; nothing is committed. *)
Lemma unmatched_pattern_fails_commitChanges :
  let options := git_options ["*.go"; "*.yaml"; "*.txt"] in
  let r := run backend (commitChanges ctx0 repo1 options) dirty_store in
  IsClean (st_status dirty_store) = false ∧
  st_glob dirty_store !! "*.yaml" = None ∧
  outcome r = Returned (false, Some (wrapError
    "failed to stage files using pattern *.yaml: glob pattern did not match any files"
    ErrGlobNoMatches)) ∧
  calls r = [Repository_Worktree repo1; Worktree_Status wt1;
             Worktree_AddGlob wt1 "*.go"; Worktree_AddGlob wt1 "*.yaml"].
Proof. vm_compute. repeat split. Qed.


(** On the dirty clone the commit is made, with the message assembled from
    title [T], body [B] and footer [F]. *)
Example commitChanges_commits_sample :
  let r := run backend (commitChanges ctx0 repo1 (git_options ["*.go"; "*.txt"])) dirty_store in
  outcome r = Returned (true, None) ∧
  map (fun c => snd (fst c)) (st_commits (final r))
    = ["T" +:+ LF +:+ LF +:+ "B" +:+ LF +:+ LF +:+ "-- " +:+ LF +:+ "F"] ∧
  IsClean (st_status (final r)) = true.
Proof. vm_compute. repeat split. Qed.

(** A malformed pattern stops the staging loop at that pattern. *)
Example commitChanges_bad_pattern_sample :
  let r := run backend (commitChanges ctx0 repo1 (git_options ["*.go"; "["; "*.txt"]))
               dirty_store in
  outcome r = Returned (false, Some (wrapError
    "failed to stage files using pattern [: syntax error in pattern"
    (errors_New "syntax error in pattern"))) ∧
  calls r = [Repository_Worktree repo1; Worktree_Status wt1;
             Worktree_AddGlob wt1 "*.go"; Worktree_AddGlob wt1 "["].
Proof. vm_compute. repeat split. Qed.

(** The branch parameter: a name, a name between spaces (used as it is),
    spaces only, a no-break space, and no parameter. *)
Example cloneReference_samples :
  cloneReference (mkRepository "acme" "my-repo" {[ "branch" := "release" ]})
    = "refs/heads/release" ∧
  cloneReference (mkRepository "acme" "my-repo" {[ "branch" := " release " ]})
    = "refs/heads/ release " ∧
  cloneReference (mkRepository "acme" "my-repo" {[ "branch" := "   " ]}) = "HEAD" ∧
  cloneReference (mkRepository "acme" "my-repo"
                    {[ "branch" := String "194" (String "160" "") ]}) = "HEAD" ∧
  cloneReference (mkRepository "acme" "my-repo" ∅) = "HEAD".
Proof. vm_compute. repeat split. Qed.

(** A forced push of [main] after the commit: the refspec carries the
    marker, and the token is the one answered to this call. *)
Example pushChanges_forced_sample :
  let r := run backend (pushChanges ctx0 repo1 (mkPushOpts auth0 "main" true))
               (set_tokens [inr "token-9"] committed_store) in
  outcome r = Returned None ∧
  calls r = [Repository_Worktree repo1; githubClient ctx0 auth0;
             Repository_PushContext repo1 ctx0
               (mkPushOptions ["+refs/heads/main:refs/heads/main"]
                  (mkBasicAuth "x-access-token" "token-9"))].
Proof. vm_compute. repeat split. Qed.

(** There is no [refs/heads/feature] yet: switching to [feature] with
    [CreateBranch] goes straight to the checkout, which creates it. *)
Lemma switchBranch_creates_on_checkout_witness :
  let opts := mkSwitchBranchOptions "feature" true in
  let r := run backend (switchBranch ctx0 repo1 opts) clean_store in
  calls r = [Repository_Worktree repo1;
             Worktree_Checkout wt1 (mkCheckoutOptions "refs/heads/feature" true)] ∧
  outcome r = Returned None ∧
  final r = set_head "refs/heads/feature"
              (set_refs (insert "refs/heads/feature"
                           (NewHashReference "refs/heads/feature" hash_a)) clean_store).
Proof.
  apply (switchBranch_creates_on_checkout backend ctx0 repo1
           (mkSwitchBranchOptions "feature" true) clean_store clean_store
           (set_head "refs/heads/feature"
              (set_refs (insert "refs/heads/feature"
                           (NewHashReference "refs/heads/feature" hash_a)) clean_store))
           wt1 None);
    [reflexivity | reflexivity | vm_compute; reflexivity].
Defined.

(** On the bare repository the three operations stop at the worktree call. *)
Lemma worktree_error_stops_operations_witness :
  let failed := wrapError
    "failed to open worktree: worktree not available in a bare repository"
    ErrIsBareRepository in
  let switched := run backend (switchBranch ctx0 repo1 (mkSwitchBranchOptions "main" false))
                      bare_store in
  let committed := run backend (commitChanges ctx0 repo1 (git_options ["*.go"])) bare_store in
  let pushed := run backend (pushChanges ctx0 repo1 (mkPushOpts auth0 "main" false))
                    bare_store in
  outcome switched = Returned (Some failed) ∧
  outcome committed = Returned (false, Some failed) ∧
  outcome pushed = Returned (Some failed) ∧
  calls switched = [Repository_Worktree repo1] ∧
  calls committed = [Repository_Worktree repo1] ∧
  calls pushed = [Repository_Worktree repo1] ∧
  final switched = bare_store ∧ final committed = bare_store ∧ final pushed = bare_store.
Proof.
  apply (worktree_error_stops_operations backend ctx0 repo1
           (mkSwitchBranchOptions "main" false) (git_options ["*.go"])
           (mkPushOpts auth0 "main" false) bare_store bare_store None
           ErrIsBareRepository).
  reflexivity.
Defined.

(** Two push options with different credentials and the same refspec. *)
Lemma refSpec_determines_branch_and_force_witness :
  let o1 := mkPushOpts auth0 "main" true in
  let o2 := mkPushOpts (mkGitHubOptions "app 1, installation 2") "main" true in
  refSpec o1 = refSpec o2 ∧
  push_BranchName o1 = push_BranchName o2 ∧ ForcePush o1 = ForcePush o2.
Proof.
  split; [reflexivity|].
  apply (refSpec_determines_branch_and_force
           (mkPushOpts auth0 "main" true)
           (mkPushOpts (mkGitHubOptions "app 1, installation 2") "main" true)).
  reflexivity.
Defined.

(** The remote rejects the push of [main] from the clone in
    [/tmp/octopilot/my-repo]. *)
Lemma push_failure_names_branch_and_directory_witness :
  let rejected := errors_New "non-fast-forward update: refs/heads/main" in
  let r := run (rejecting rejected) (pushChanges ctx0 repo1 (mkPushOpts auth0 "main" false))
               (set_tokens [inr "token-2"] committed_store) in
  exists e,
    outcome r = Returned (Some e) ∧
    Error e = "failed to push branch " +:+ "main" +:+ " to " +:+ "my-repo" +:+ ": "
                +:+ "non-fast-forward update: refs/heads/main" ∧
    Unwrap e = Some rejected.
Proof.
  apply (push_failure_names_branch_and_directory
           (rejecting (errors_New "non-fast-forward update: refs/heads/main"))
           ctx0 repo1 (mkPushOpts auth0 "main" false)
           (set_tokens [inr "token-2"] committed_store)
           (set_tokens [inr "token-2"] committed_store)
           (set_tokens [] committed_store) (set_tokens [] committed_store)
           wt1 "/tmp/octopilot" "my-repo" (Some (ClientPtr 1)) "token-2"
           (errors_New "non-fast-forward update: refs/heads/main"));
    [reflexivity | apply (bool_decide_unpack ("my-repo" ≠ "")); vm_compute; exact I | reflexivity
    | vm_compute; reflexivity | vm_compute; reflexivity | vm_compute; reflexivity].
Defined.

End Runs.
